(** * RSI alert bot: zone classifier, alert decision, market selector and
      notifier of [rsi_bot.py]

    A shallow embedding of [src/rsi_bot.py].  Python floats are IEEE 754
    binary64 numbers and are modelled by Rocq's primitive floats, candle
    timestamps (Python [int]) by [Z], the per-timeframe state dictionary
    by a record, and the table [state] of [main] by a finite map keyed by
    the timeframe label.  The exchanges and the Telegram API are a record
    of answers, and the functions that talk to them return their value
    together with the trace of what they did. *)

From Stdlib Require Import ZArith Floats.
From stdpp Require Import gmap strings list.

Open Scope Z_scope.

(** ** Configuration constants *)

Definition TIMEFRAMES : list string := ["1m"; "5m"; "15m"; "1h"; "4h"]%string.
Definition LOW_THRESH : float := 20.0%float.
Definition HIGH_THRESH : float := 80.0%float.
(** [COOLDOWN_SECONDS] is the [int] 300; it is only ever compared with a
    float, which compares as with the float 300.0. *)
Definition COOLDOWN_SECONDS : float := 300%float.

Definition SYMBOL_CANDIDATES : list (string * list string) :=
  [ ("bybit",     ["BTC/USDT"]);
    ("okx",       ["BTC/USDT"; "BTC-USDT"]);
    ("kraken",    ["BTC/USDT"; "XBT/USDT"; "BTC/USD"; "XBT/USD"]);
    ("binanceus", ["BTC/USDT"; "BTC/USD"]);
    ("coinbase",  ["BTC/USD"; "BTC/USDT"]) ]%string.

(** Python's comparison operators on floats.  [a > b] is [b < a] and
    [a >= b] is [b <= a]; every comparison with a NaN is false. *)
Definition flt (a b : float) : bool := PrimFloat.ltb a b.
Definition fgt (a b : float) : bool := PrimFloat.ltb b a.
Definition fge (a b : float) : bool := PrimFloat.leb b a.

(** ** Zone classifier *)

Inductive zone : Set := below | above | normal.

Definition zone_eqb (a b : zone) : bool :=
  match a, b with
  | below, below | above, above | normal, normal => true
  | _, _ => false
  end.

Definition classify_zone (rsi : float) : zone :=
  if flt rsi LOW_THRESH then below
  else if fgt rsi HIGH_THRESH then above
  else normal.

(** ** Alert decision engine (the body of the timeframe loop of [main])

    One entry of [state]: the dictionary
    [{"last_zone", "last_ts", "last_alert_low", "last_alert_high"}]. *)

Record tf_state : Set := mk_tf_state {
  last_zone : zone;
  last_ts : Z;
  last_alert_low : float;
  last_alert_high : float
}.

Definition initial_tf_state : tf_state :=
  {| last_zone := normal; last_ts := 0;
     last_alert_low := 0.0%float; last_alert_high := 0.0%float |}.

(** [state = {tf: {...} for tf in TIMEFRAMES}]. *)
Definition initial_state : gmap string tf_state :=
  list_to_map ((fun tf => (tf, initial_tf_state)) <$> TIMEFRAMES).

(** The selected market: the exchange (by its [id]) and the symbol. *)
Definition market : Type := string * string.

(** [alert_text] is an f-string; it is kept as the values it interpolates
    (the UTC time stamp is read from the clock when the text is built). *)
Inductive side : Set := OVERSOLD | OVERBOUGHT.

Record alert : Set := mk_alert {
  alert_side : side;
  alert_tf : string;
  alert_symbol : string;
  alert_rsi : float;
  alert_exchange : string
}.

Definition new_candle (ts : Z) (tf_st : tf_state) : bool :=
  negb (ts =? last_ts tf_st).

Definition crossed_below (ts : Z) (tf_st : tf_state) (z : zone) : bool :=
  new_candle ts tf_st && (negb (zone_eqb (last_zone tf_st) below) && zone_eqb z below).

Definition crossed_above (ts : Z) (tf_st : tf_state) (z : zone) : bool :=
  new_candle ts tf_st && (negb (zone_eqb (last_zone tf_st) above) && zone_eqb z above).

Definition can_low (now_t : float) (tf_st : tf_state) : bool :=
  fge (now_t - last_alert_low tf_st)%float COOLDOWN_SECONDS.

Definition can_high (now_t : float) (tf_st : tf_state) : bool :=
  fge (now_t - last_alert_high tf_st)%float COOLDOWN_SECONDS.

(** Lines 134-165 of [main], on the entry [tf_state = state[tf]]: the new
    entry and the [alert_text] handed to [send_telegram] ([None] when no
    alert is sent this cycle). *)
Definition on_sample (m : market) (tf : string) (tf_st : tf_state)
    (rsi : float) (ts : Z) (now_t : float) : tf_state * option alert :=
  let z := classify_zone rsi in
  let '(tf_st1, alert_text) :=
    if zone_eqb z below && (crossed_below ts tf_st z || can_low now_t tf_st) then
      ({| last_zone := last_zone tf_st; last_ts := last_ts tf_st;
          last_alert_low := now_t; last_alert_high := last_alert_high tf_st |},
       Some (mk_alert OVERSOLD tf (snd m) rsi (fst m)))
    else if zone_eqb z above && (crossed_above ts tf_st z || can_high now_t tf_st) then
      ({| last_zone := last_zone tf_st; last_ts := last_ts tf_st;
          last_alert_low := last_alert_low tf_st; last_alert_high := now_t |},
       Some (mk_alert OVERBOUGHT tf (snd m) rsi (fst m)))
    else (tf_st, None) in
  ({| last_zone := z; last_ts := ts;
      last_alert_low := last_alert_low tf_st1;
      last_alert_high := last_alert_high tf_st1 |}, alert_text).

(** The same lines on the table: [state[tf]] raises [KeyError] on a label
    that is not a key ([None] here); the entry is updated in place. *)
Definition process_sample (m : market) (state : gmap string tf_state)
    (tf : string) (rsi : float) (ts : Z) (now_t : float)
    : option (gmap string tf_state * option alert) :=
  match state !! tf with
  | None => None
  | Some tf_st =>
      let '(tf_st', alert_text) := on_sample m tf tf_st rsi ts now_t in
      Some (<[tf := tf_st']> state, alert_text)
  end.

(** ** The outside world

    An exception is kept as its message ([str(e)]).  A call that can raise
    returns a [result]. *)

Definition exn : Type := string.

Inductive result (A : Type) : Type :=
  | Ok (a : A)
  | Raise (e : exn).
Arguments Ok {A} a.
Arguments Raise {A} e.

(** An OHLCV candle is the list [[ts, open, high, low, close, volume]]. *)
Definition candle : Type := list float.

(** What the exchanges and the Telegram API answer.  [ccxt_make] is
    [make_exchange], [ccxt_load_markets] is [ex.load_markets()],
    [ccxt_fetch_ohlcv] is [ex.fetch_ohlcv(sym, timeframe=..., limit=...)]
    and [requests_post] is [requests.post(url, data=..., timeout=...)]. *)
Record world : Type := mk_world {
  ccxt_make : string -> result unit;
  ccxt_load_markets : string -> result unit;
  ccxt_fetch_ohlcv : string -> string -> string -> Z -> result (list candle);
  requests_post : string -> list (string * string) -> Z -> result unit
}.

(** What a run does to the outside, in order.  A call is recorded with
    its answer.  A printed line is kept without its ["[<UTC time>] "]
    prefix, which is read from the clock. *)
Inductive event : Type :=
  | EvMake (ex_id : string) (r : result unit)
  | EvLoadMarkets (ex_id : string) (r : result unit)
  | EvFetch (ex_id sym timeframe : string) (limit : Z) (r : result (list candle))
  | EvPost (url : string) (data : list (string * string)) (timeout : Z) (r : result unit)
  | EvPrint (line : string)
  | EvSleep (seconds : Z).

(** Computations that leave a trace of events. *)
Definition io (A : Type) : Type := A * list event.

Definition io_ret {A} (a : A) : io A := (a, []).

Definition io_bind {A B} (c : io A) (k : A -> io B) : io B :=
  (fst (k (fst c)), snd c ++ snd (k (fst c))).

Declare Scope io_scope.
Delimit Scope io_scope with io.
Notation "x <~ c ;; k" := (io_bind c (fun x => k))
  (at level 100, c at next level, right associativity) : io_scope.
Notation "c ;;; k" := (io_bind c (fun _ => k))
  (at level 100, right associativity) : io_scope.

Definition emit (e : event) : io unit := (tt, [e]).
Definition print (line : string) : io unit := emit (EvPrint line).
Definition sleep (seconds : Z) : io unit := emit (EvSleep seconds).

Section WithWorld.

Variable w : world.

Definition make_exchange (ex_id : string) : io (result unit) :=
  let r := ccxt_make w ex_id in (r, [EvMake ex_id r]).

Definition load_markets (ex_id : string) : io (result unit) :=
  let r := ccxt_load_markets w ex_id in (r, [EvLoadMarkets ex_id r]).

Definition fetch_ohlcv (ex_id sym timeframe : string) (limit : Z)
    : io (result (list candle)) :=
  let r := ccxt_fetch_ohlcv w ex_id sym timeframe limit in
  (r, [EvFetch ex_id sym timeframe limit r]).

Definition post (url : string) (data : list (string * string)) (timeout : Z)
    : io (result unit) :=
  let r := requests_post w url data timeout in (r, [EvPost url data timeout r]).

(** *** Market source selector *)

(** [candles and len(candles[0]) >= 5] *)
Definition working (candles : list candle) : bool :=
  match candles with
  | [] => false
  | c :: _ => 5 <=? Z.of_nat (length c)
  end.

(** How the inner [for sym in syms] loop ends: by the [return ex, sym]
    of the function, or by running out of symbols. *)
Inductive loop_exit : Type :=
  | Return (m : market)
  | Exhausted (last_err : option exn).

Fixpoint probe_symbols (ex_id : string) (syms : list string)
    (last_err : option exn) : io loop_exit :=
  match syms with
  | [] => io_ret (Exhausted last_err)
  | sym :: syms' =>
      (r <~ fetch_ohlcv ex_id sym "1m" 10 ;;
       match r with
       | Ok candles =>
           if working candles then
             print ("Using " ++ ex_id ++ " / " ++ sym) ;;;
             io_ret (Return (ex_id, sym))
           else probe_symbols ex_id syms' last_err
       | Raise e =>
           print (ex_id ++ " " ++ sym ++ " failed: " ++ e) ;;;
           sleep 1 ;;;
           probe_symbols ex_id syms' (Some e)
       end)%io
  end.

(** [f"{last_err}"]: [str(None)] is ["None"]. *)
Definition fmt_err (last_err : option exn) : string :=
  default "None"%string last_err.

Definition no_market (last_err : option exn) : exn :=
  ("No working exchange/symbol. Last error: " ++ fmt_err last_err)%string.

(** The outer [for ex_id, syms in ...] loop and the final [raise]. *)
Fixpoint pick_from (cands : list (string * list string))
    (last_err : option exn) : io (result market) :=
  match cands with
  | [] => io_ret (Raise (no_market last_err))
  | (ex_id, syms) :: rest =>
      (r <~ make_exchange ex_id ;;
       match r with
       | Raise e =>
           print ("Could not init " ++ ex_id ++ ": " ++ e) ;;;
           pick_from rest (Some e)
       | Ok _ =>
           l <~ load_markets ex_id ;;
           match l with
           | Raise e => print (ex_id ++ " load_markets warn: " ++ e)
           | Ok _ => io_ret tt
           end ;;;
           x <~ probe_symbols ex_id syms last_err ;;
           match x with
           | Return m => io_ret (Ok m)
           | Exhausted last_err' => sleep 1 ;;; pick_from rest last_err'
           end
       end)%io
  end.

Definition pick_working_market : io (result market) :=
  pick_from SYMBOL_CANDIDATES None.

(** *** Notifier *)

(** [BOT_TOKEN] and [CHAT_ID] are read from the process environment
    with the default [""]. *)
Variable environ : gmap string string.

Definition BOT_TOKEN : string := default ""%string (environ !! "BOT_TOKEN"%string).
Definition CHAT_ID : string := default ""%string (environ !! "CHAT_ID"%string).

(** [not s] on a string. *)
Definition str_not (s : string) : bool :=
  match s with EmptyString => true | String _ _ => false end.

(** [send_telegram] returns [None] on every path; [Ok tt] is that
    normal return. *)
Definition send_telegram (text : string) : io (result unit) :=
  (if str_not BOT_TOKEN || str_not CHAT_ID then
     print ("(TELEGRAM DISABLED) " ++ text) ;;;
     io_ret (Ok tt)
   else
     let url := ("https://api.telegram.org/bot" ++ BOT_TOKEN ++ "/sendMessage")%string in
     r <~ post url [("chat_id", CHAT_ID); ("text", text)]%string 15 ;;
     match r with
     | Ok _ => io_ret (Ok tt)
     | Raise e => print ("Telegram send error: " ++ e) ;;; io_ret (Ok tt)
     end)%io.

End WithWorld.

(** ** Reading a trace and the candidate table

    The pairs probed by a run, in order. *)
Definition probes (t : list event) : list market :=
  omap (fun ev => match ev with
                  | EvFetch ex_id sym _ _ _ => Some (ex_id, sym)
                  | _ => None
                  end) t.

(** The exchanges a run tried to build, in order. *)
Definition makes (t : list event) : list string :=
  omap (fun ev => match ev with
                  | EvMake ex_id _ => Some ex_id
                  | _ => None
                  end) t.

(** The exchanges on which a run called [load_markets], in order. *)
Definition loads (t : list event) : list string :=
  omap (fun ev => match ev with
                  | EvLoadMarkets ex_id _ => Some ex_id
                  | _ => None
                  end) t.

Definition initialises (w : world) (ex_id : string) : bool :=
  match ccxt_make w ex_id with Ok _ => true | Raise _ => false end.

(** The probe of [fetch_ohlcv(sym, timeframe="1m", limit=10)] passes the
    test of [pick_working_market]. *)
Definition probe_works (w : world) (m : market) : bool :=
  match ccxt_fetch_ohlcv w (fst m) (snd m) "1m" 10 with
  | Ok candles => working candles
  | Raise _ => false
  end.

Definition probe_error (w : world) (m : market) : list exn :=
  match ccxt_fetch_ohlcv w (fst m) (snd m) "1m" 10 with
  | Ok _ => []
  | Raise e => [e]
  end.

(** The candidate table flattened in its order, without the providers
    that do not initialise. *)
Fixpoint attempts (w : world) (cands : list (string * list string))
    : list market :=
  match cands with
  | [] => []
  | (ex_id, syms) :: rest =>
      (if initialises w ex_id then pair ex_id <$> syms else [])
        ++ attempts w rest
  end.

(** The errors of initialisation and of probes over the whole table, in
    order. *)
Fixpoint init_and_probe_errors (w : world) (cands : list (string * list string))
    : list exn :=
  match cands with
  | [] => []
  | (ex_id, syms) :: rest =>
      match ccxt_make w ex_id with
      | Raise e => [e]
      | Ok _ => flat_map (probe_error w) (pair ex_id <$> syms)
      end ++ init_and_probe_errors w rest
  end.

(** The elements of [l] up to and with the first that satisfies [P]. *)
Fixpoint take_through {A} (P : A -> bool) (l : list A) : list A :=
  match l with
  | [] => []
  | x :: l' => if P x then [x] else x :: take_through P l'
  end.

(** [es] read after [last_err]: the last of [es], or [last_err]. *)
Definition latest (last_err : option exn) (es : list exn) : option exn :=
  match last es with Some e => Some e | None => last_err end.

(** A world whose [load_markets] never raises and is otherwise [w]. *)
Definition with_markets_loaded (w : world) : world :=
  {| ccxt_make := ccxt_make w;
     ccxt_load_markets := fun _ => Ok tt;
     ccxt_fetch_ohlcv := ccxt_fetch_ohlcv w;
     requests_post := requests_post w |}.

(** ** The selector as the specification words it

    A probe that "returns at least one candle with five or more fields". *)
Definition claimed_working (candles : list candle) : bool :=
  existsb (fun c => 5 <=? Z.of_nat (length c)) candles.

Definition claimed_probe_works (w : world) (m : market) : bool :=
  match ccxt_fetch_ohlcv w (fst m) (snd m) "1m" 10 with
  | Ok candles => claimed_working candles
  | Raise _ => false
  end.

(** "The last underlying error observed": the last exception among the
    answers recorded in a trace. *)
Definition raised {A} (r : result A) : option exn :=
  match r with Ok _ => None | Raise e => Some e end.

Definition event_error (ev : event) : option exn :=
  match ev with
  | EvMake _ r | EvLoadMarkets _ r | EvPost _ _ _ r => raised r
  | EvFetch _ _ _ _ r => raised r
  | EvPrint _ | EvSleep _ => None
  end.

Definition last_observed_error (t : list event) : option exn :=
  last (omap event_error t).

(** ** Sample states and worlds *)

(** An entry alerted on both sides at time 999. *)
Definition recently_alerted (z : zone) : tf_state :=
  {| last_zone := z; last_ts := 60000;
     last_alert_low := 999%float; last_alert_high := 999%float |}.

Definition full_candle : candle :=
  [1700000000000; 35000; 35010; 34990; 35005; 12.5]%float.

Definition short_candle : candle := [1700000000000; 35000; 35010]%float.

(** Every call succeeds, but [load_markets] raises on bybit. *)
Definition world_bybit_markets_down : world :=
  {| ccxt_make := fun _ => Ok tt;
     ccxt_load_markets := fun ex_id =>
       if String.eqb ex_id "bybit" then Raise "markets unavailable"%string
       else Ok tt;
     ccxt_fetch_ohlcv := fun _ _ _ _ => Ok [full_candle];
     requests_post := fun _ _ _ => Ok tt |}.

(** ccxt has no exchange of the name bybit; the others answer. *)
Definition world_no_bybit : world :=
  {| ccxt_make := fun ex_id =>
       if String.eqb ex_id "bybit"
       then Raise "module 'ccxt' has no attribute 'bybit'"%string
       else Ok tt;
     ccxt_load_markets := fun _ => Ok tt;
     ccxt_fetch_ohlcv := fun _ _ _ _ => Ok [full_candle];
     requests_post := fun _ _ _ => Ok tt |}.

(** The bybit probe answers a short first candle followed by a full one;
    the others answer full candles. *)
Definition world_short_first_candle : world :=
  {| ccxt_make := fun _ => Ok tt;
     ccxt_load_markets := fun _ => Ok tt;
     ccxt_fetch_ohlcv := fun ex_id _ _ _ =>
       if String.eqb ex_id "bybit" then Ok [short_candle; full_candle]
       else Ok [full_candle];
     requests_post := fun _ _ _ => Ok tt |}.

(** The bybit probe times out, every other probe answers no candle, and
    [load_markets] raises on coinbase, the last provider. *)
Definition world_nothing_works : world :=
  {| ccxt_make := fun _ => Ok tt;
     ccxt_load_markets := fun ex_id =>
       if String.eqb ex_id "coinbase" then Raise "coinbase markets unavailable"%string
       else Ok tt;
     ccxt_fetch_ohlcv := fun ex_id _ _ _ =>
       if String.eqb ex_id "bybit" then Raise "bybit timeout"%string
       else Ok [];
     requests_post := fun _ _ _ => Ok tt |}.

(** ** The run loop of [main]

    More constants of the configuration. *)

Definition CANDLES_LIMIT : Z := 200.
Definition RUN_SECONDS : float := 240%float.

(** The order of the zones along the RSI axis. *)
Definition zone_rank (z : zone) : Z :=
  match z with below => 0 | normal => 1 | above => 2 end.

(** The line feed of ["\n"], and how an f-string shows a zone and a
    [bool]. *)
Definition nl : string := String (Ascii.ascii_of_nat 10) EmptyString.

Definition zone_str (z : zone) : string :=
  match z with below => "below" | above => "above" | normal => "normal" end.

Definition bool_str (b : bool) : string := if b then "True" else "False".

(** [str.lower], on the ASCII letters (no other character is lowered to
    one of the letters of ["true"], the only string [lower] is compared
    with). *)
Definition lower_ascii (c : Ascii.ascii) : Ascii.ascii :=
  let n := Ascii.nat_of_ascii c in
  if ((65 <=? n) && (n <=? 90))%nat then Ascii.ascii_of_nat (n + 32) else c.

Fixpoint lower (s : string) : string :=
  match s with
  | EmptyString => EmptyString
  | String c s' => String (lower_ascii c) (lower s')
  end.

(** [STARTUP_DM = os.environ.get("STARTUP_DM", "true").lower() == "true"] *)
Definition STARTUP_DM (environ : gmap string string) : bool :=
  String.eqb (lower (default "true"%string (environ !! "STARTUP_DM"%string)))
    "true".

(** The binding to a market and the table of the timeframes: what [main]
    carries from one timeframe to the next. *)
Record run_state : Type := mk_run_state {
  binding : market;
  table : gmap string tf_state
}.

Section Sweep.

Variable w : world.
Variable environ : gmap string string.

(** [isinstance(e, ccxt.BaseError)] *)
Variable is_base_error : exn -> bool.

(** What pandas and [ta] make of the bars in [fetch_rsi]: the last RSI
    value and the time stamp of the last bar, or the exception they
    raise. *)
Variable last_rsi : list candle -> result (float * Z).

(** [f"{x:.Nf}"] *)
Variable format_f : nat -> float -> string.

(** The readings of [time.time()] at line 140 and of [now_utc_str()] in
    the alert text, while a timeframe is processed. *)
Variable now_t : string -> float.
Variable now_utc_str : string -> string.

Definition fetch_rsi (m : market) (timeframe : string)
    : io (result (float * Z)) :=
  (r <~ fetch_ohlcv w (fst m) (snd m) timeframe CANDLES_LIMIT ;;
   match r with
   | Raise e => io_ret (Raise e)
   | Ok bars => io_ret (last_rsi bars)
   end)%io.

(** The f-strings of lines 146-150 and 153-157. *)
Definition alert_text_of (a : alert) : string :=
  match alert_side a with
  | OVERSOLD =>
      "⚠️ OVERSOLD on " ++ alert_tf a ++ nl
        ++ alert_symbol a ++ " RSI(14) = " ++ format_f 2 (alert_rsi a)
        ++ " (< " ++ format_f 0 LOW_THRESH ++ ")" ++ nl
        ++ "Exchange: " ++ alert_exchange a ++ nl
        ++ "UTC: " ++ now_utc_str (alert_tf a)
  | OVERBOUGHT =>
      "🚀 OVERBOUGHT on " ++ alert_tf a ++ nl
        ++ alert_symbol a ++ " RSI(14) = " ++ format_f 2 (alert_rsi a)
        ++ " (> " ++ format_f 0 HIGH_THRESH ++ ")" ++ nl
        ++ "Exchange: " ++ alert_exchange a ++ nl
        ++ "UTC: " ++ now_utc_str (alert_tf a)
  end%string.

(** The line printed at line 160. *)
Definition status_line (m : market) (tf : string) (rsi : float) (z : zone)
    (new : bool) : string :=
  (fst m ++ " " ++ snd m ++ " " ++ tf ++ " RSI=" ++ format_f 2 rsi
     ++ " zone=" ++ zone_str z ++ " new=" ++ bool_str new)%string.

(** One round of [for tf in TIMEFRAMES] (lines 119-165).  The only
    exception that can leave it is the [KeyError] of [state[tf]]; it is
    returned as the key, beside the state reached. *)
Definition sweep_timeframe (st : run_state) (tf : string)
    : io (run_state * option string) :=
  (r <~ fetch_rsi (binding st) tf ;;
   match r with
   | Raise e =>
       if is_base_error e then
         print (fst (binding st) ++ " " ++ snd (binding st) ++ " " ++ tf
                  ++ " error: " ++ e) ;;;
         sleep 10 ;;;
         p <~ pick_working_market w ;;
         match p with
         | Ok m' =>
             send_telegram w environ
               ("🔁 Switched to " ++ fst m' ++ " / " ++ snd m') ;;;
             io_ret (mk_run_state m' (table st), None)
         | Raise ee =>
             print ("Switch failed: " ++ ee) ;;;
             io_ret (st, None)
         end
       else
         print ("Fetch error " ++ tf ++ ": " ++ e) ;;;
         io_ret (st, None)
   | Ok (rsi, ts) =>
       match table st !! tf with
       | None => io_ret (st, Some tf)
       | Some tf_st =>
           let x := on_sample (binding st) tf tf_st rsi ts (now_t tf) in
           print (status_line (binding st) tf rsi (classify_zone rsi)
                    (new_candle ts tf_st)) ;;;
           match snd x with
           | Some a =>
               if str_not (alert_text_of a) then io_ret (Ok tt)
               else send_telegram w environ (alert_text_of a)
           | None => io_ret (Ok tt)
           end ;;;
           io_ret (mk_run_state (binding st) (<[tf := fst x]> (table st)), None)
       end
   end)%io.

(** The [for] loop over the timeframes; it stops at an exception. *)
Fixpoint sweep (tfs : list string) (st : run_state)
    : io (run_state * option string) :=
  match tfs with
  | [] => io_ret (st, None)
  | tf :: rest =>
      (r <~ sweep_timeframe st tf ;;
       match snd r with
       | Some key => io_ret r
       | None => sweep rest (fst r)
       end)%io
  end.

(** The body of the [while] loop (lines 117-180), with [start] and the
    reading [t_sleep] of [time.time()] at line 167.  A [KeyError] is no
    [ccxt.BaseError]: it is caught by the last handler. *)
Definition loop_iteration (start t_sleep : float) (st : run_state)
    : io run_state :=
  (r <~ sweep TIMEFRAMES st ;;
   match snd r with
   | None =>
       sleep (if flt (t_sleep - start)%float RUN_SECONDS then 30 else 1) ;;;
       io_ret (fst r)
   | Some key =>
       print ("Unexpected error: '" ++ key ++ "'. Retrying in 30s…") ;;;
       sleep 30 ;;;
       io_ret (fst r)
   end)%io.

End Sweep.

(** What the outside answers during one round of the [while] loop: the
    exchanges and Telegram, the clock readings of the sweep, and the
    readings of [time.time()] in the loop condition and at line 167. *)
Record outside : Type := mk_outside {
  o_world : world;
  o_now_t : string -> float;
  o_now_utc_str : string -> string;
  o_t_head : float;
  o_t_sleep : float
}.

Section Main.

Variable environ : gmap string string.
Variable is_base_error : exn -> bool.
Variable last_rsi : list candle -> result (float * Z).
Variable format_f : nat -> float -> string.

(** The [while] loop (line 116), one element of [rounds] for each time
    its condition is evaluated.  [None]: the loop is still running when
    [rounds] ends. *)
Fixpoint main_loop (start : float) (rounds : list outside) (st : run_state)
    : io (option run_state) :=
  match rounds with
  | [] => io_ret None
  | o :: rest =>
      if flt (o_t_head o - start)%float RUN_SECONDS then
        (st' <~ loop_iteration (o_world o) environ is_base_error last_rsi
                  format_f (o_now_t o) (o_now_utc_str o) start (o_t_sleep o) st ;;
         main_loop start rest st')%io
      else io_ret (Some st)
  end.

(** [main], with the world [w0] of its start and the reading [start] of
    [time.time()].  [Raise]: the first selection failed; [Ok (Some st)]:
    [main] returned, leaving [st] behind. *)
Definition main (w0 : world) (start : float) (rounds : list outside)
    : io (result (option run_state)) :=
  ((if STARTUP_DM environ then
      send_telegram w0 environ
        "✅ BTC RSI watcher (GitHub Actions) starting… selecting exchange."
    else io_ret (Ok tt)) ;;;
   p <~ pick_working_market w0 ;;
   match p with
   | Raise e => io_ret (Raise e)
   | Ok m =>
       (if STARTUP_DM environ then
          send_telegram w0 environ
            ("✅ Live on " ++ fst m ++ " • " ++ snd m ++ nl
               ++ "TFs: " ++ String.concat ", " TIMEFRAMES)
        else io_ret (Ok tt)) ;;;
       r <~ main_loop start rounds (mk_run_state m initial_state) ;;
       io_ret (Ok r)
   end)%io.

End Main.

(** The seconds a run slept, in all. *)
Definition slept (t : list event) : Z :=
  foldr (fun ev acc => match ev with EvSleep n => n + acc | _ => acc end) 0 t.

(** The posts of a run, in order: URL, form data and timeout. *)
Definition posts (t : list event) : list (string * list (string * string) * Z) :=
  omap (fun ev => match ev with
                  | EvPost url data timeout _ => Some (url, data, timeout)
                  | _ => None
                  end) t.

(** The lines a run printed, in order. *)
Definition printed (t : list event) : list string :=
  omap (fun ev => match ev with EvPrint line => Some line | _ => None end) t.

(** What an event of a selection may be: no post, no fetch other than of
    10 candles of ["1m"], no sleep other than of one second. *)
Definition selection_event (ev : event) : Prop :=
  match ev with
  | EvPost _ _ _ _ => False
  | EvFetch _ _ timeframe limit _ => timeframe = "1m"%string /\ limit = 10
  | EvSleep seconds => seconds = 1
  | _ => True
  end.

(** ** More sample worlds *)

(** Telegram is down: every post raises. *)
Definition world_telegram_down : world :=
  {| ccxt_make := fun _ => Ok tt;
     ccxt_load_markets := fun _ => Ok tt;
     ccxt_fetch_ohlcv := fun _ _ _ _ => Ok [full_candle];
     requests_post := fun _ _ _ => Raise "read timed out"%string |}.

(** Both credentials set. *)
Definition environ_configured : gmap string string :=
  <["BOT_TOKEN"%string := "123:abc"%string]>
    (<["CHAT_ID"%string := "42"%string]> ∅).

(** The bybit endpoints are down: every fetch on bybit raises a network
    error of ccxt; the other exchanges answer. *)
Definition world_bybit_down : world :=
  {| ccxt_make := fun _ => Ok tt;
     ccxt_load_markets := fun _ => Ok tt;
     ccxt_fetch_ohlcv := fun ex_id _ _ _ =>
       if String.eqb ex_id "bybit"
       then Raise "ccxt.NetworkError: bybit GET timed out"%string
       else Ok [full_candle];
     requests_post := fun _ _ _ => Ok tt |}.

(** Sample answers of the libraries and of the clock. *)
Definition sample_is_base_error (e : exn) : bool := String.prefix "ccxt." e.

Definition sample_last_rsi (bars : list candle) : result (float * Z) :=
  match bars with
  | [] => Raise "single positional indexer is out-of-bounds"%string
  | _ :: _ => Ok (18%float, 120000)
  end.

Definition sample_format_f (digits : nat) (x : float) : string := "18.00".
Definition sample_now_t (tf : string) : float := 1000%float.
Definition sample_now_utc_str (tf : string) : string := "2025-01-01 00:00:00 UTC".

(** A run bound to bybit, respectively okx, with the initial table. *)
Definition on_bybit : run_state := mk_run_state ("bybit", "BTC/USDT")%string initial_state.
Definition on_okx : run_state := mk_run_state ("okx", "BTC/USDT")%string initial_state.

(** A round 10 seconds and a round 250 seconds after a start at 1000. *)
Definition round_at_10 : outside :=
  mk_outside world_bybit_down sample_now_t sample_now_utc_str 1010 1015.
Definition round_at_250 : outside :=
  mk_outside world_bybit_down sample_now_t sample_now_utc_str 1250 1255.

(** * Properties *)

(** ** Facts on binary64 comparisons *)

Lemma Prim2SF_LOW_THRESH :
  Prim2SF LOW_THRESH = S754_finite false 5629499534213120 (-48).
Proof. reflexivity. Qed.

Lemma Prim2SF_HIGH_THRESH :
  Prim2SF HIGH_THRESH = S754_finite false 5629499534213120 (-46).
Proof. reflexivity. Qed.

(** No float is both below [LOW_THRESH] and above [HIGH_THRESH]. *)
Lemma flt_low_not_fgt_high (r : float) :
  flt r LOW_THRESH = true -> fgt r HIGH_THRESH = false.
Proof.
  unfold flt, fgt. rewrite !ltb_spec, Prim2SF_LOW_THRESH, Prim2SF_HIGH_THRESH.
  unfold SFltb, SFcompare.
  destruct (Prim2SF r) as [sz | si | | s m e]; try destruct si; try destruct s;
    try discriminate; try reflexivity.
  destruct (Z.compare_spec e (-48)); try discriminate;
    destruct (Z.compare_spec (-46) e); try reflexivity; lia.
Qed.

(** Subtracting the float [0.0] changes nothing. *)
Lemma SF64sub_zero (x : spec_float) : SF64sub x (S754_zero false) = x.
Proof. destruct x as [[] | [] | | s m e]; reflexivity. Qed.

Lemma fge_sub_zero (now_t c : float) :
  fge (now_t - 0.0)%float c = fge now_t c.
Proof.
  unfold fge. rewrite !leb_spec, sub_spec.
  change (Prim2SF 0.0%float) with (S754_zero false).
  now rewrite SF64sub_zero.
Qed.

(** ** Zone classifier *)

(** C4: [classify_zone r] is [below] exactly when [r < 20.0], [above]
    exactly when [r > 80.0], and [normal] exactly when neither holds; the
    boundary values 20.0 and 80.0 are [normal]. *)
Theorem classify_zone_thresholds (r : float) :
  (classify_zone r = below <-> flt r 20.0%float = true) /\
  (classify_zone r = above <-> fgt r 80.0%float = true) /\
  (classify_zone r = normal <->
     flt r 20.0%float = false /\ fgt r 80.0%float = false) /\
  classify_zone 20.0%float = normal /\
  classify_zone 80.0%float = normal.
Proof.
  change 20.0%float with LOW_THRESH. change 80.0%float with HIGH_THRESH.
  pose proof (flt_low_not_fgt_high r) as Hexcl.
  unfold classify_zone.
  destruct (flt r LOW_THRESH) eqn:Hlo.
  - rewrite (Hexcl eq_refl).
    repeat split; try reflexivity; try discriminate; intros []; discriminate.
  - destruct (fgt r HIGH_THRESH) eqn:Hhi;
      repeat split; try reflexivity; try discriminate; intros []; discriminate.
Qed.

(** ** Alert decision engine *)

Lemma zone_eqb_eq (a b : zone) : zone_eqb a b = true <-> a = b.
Proof. destruct a, b; simpl; split; congruence. Qed.

Lemma new_candle_true (ts : Z) (tf_st : tf_state) :
  ts <> last_ts tf_st -> new_candle ts tf_st = true.
Proof. intros H. unfold new_candle. now apply negb_true_iff, Z.eqb_neq. Qed.

Lemma new_candle_false (ts : Z) (tf_st : tf_state) :
  ts = last_ts tf_st -> new_candle ts tf_st = false.
Proof. intros ->. unfold new_candle. now rewrite Z.eqb_refl. Qed.

(** The state written back always carries the fresh zone and timestamp. *)
Lemma on_sample_updates (m : market) (tf : string) (tf_st : tf_state)
    (rsi : float) (ts : Z) (now_t : float) :
  last_zone (fst (on_sample m tf tf_st rsi ts now_t)) = classify_zone rsi /\
  last_ts (fst (on_sample m tf tf_st rsi ts now_t)) = ts.
Proof.
  unfold on_sample.
  destruct (zone_eqb _ below && _); [now split|].
  destruct (zone_eqb _ above && _); now split.
Qed.

(** What [on_sample] does once the zone of the sample is known. *)
Lemma on_sample_below (m : market) (tf : string) (tf_st : tf_state)
    (rsi : float) (ts : Z) (now_t : float) :
  classify_zone rsi = below ->
  on_sample m tf tf_st rsi ts now_t =
    if crossed_below ts tf_st below || can_low now_t tf_st then
      ({| last_zone := below; last_ts := ts; last_alert_low := now_t;
          last_alert_high := last_alert_high tf_st |},
       Some (mk_alert OVERSOLD tf (snd m) rsi (fst m)))
    else
      ({| last_zone := below; last_ts := ts;
          last_alert_low := last_alert_low tf_st;
          last_alert_high := last_alert_high tf_st |}, None).
Proof.
  intros Hz. unfold on_sample. rewrite Hz. simpl.
  now destruct (crossed_below ts tf_st below || can_low now_t tf_st).
Qed.

Lemma on_sample_above (m : market) (tf : string) (tf_st : tf_state)
    (rsi : float) (ts : Z) (now_t : float) :
  classify_zone rsi = above ->
  on_sample m tf tf_st rsi ts now_t =
    if crossed_above ts tf_st above || can_high now_t tf_st then
      ({| last_zone := above; last_ts := ts;
          last_alert_low := last_alert_low tf_st; last_alert_high := now_t |},
       Some (mk_alert OVERBOUGHT tf (snd m) rsi (fst m)))
    else
      ({| last_zone := above; last_ts := ts;
          last_alert_low := last_alert_low tf_st;
          last_alert_high := last_alert_high tf_st |}, None).
Proof.
  intros Hz. unfold on_sample. rewrite Hz. simpl.
  now destruct (crossed_above ts tf_st above || can_high now_t tf_st).
Qed.

Lemma on_sample_normal (m : market) (tf : string) (tf_st : tf_state)
    (rsi : float) (ts : Z) (now_t : float) :
  classify_zone rsi = normal ->
  on_sample m tf tf_st rsi ts now_t =
    ({| last_zone := normal; last_ts := ts;
        last_alert_low := last_alert_low tf_st;
        last_alert_high := last_alert_high tf_st |}, None).
Proof. intros Hz. unfold on_sample. now rewrite Hz. Qed.

(** C1: from the stored zone [normal], a sample classified [below] on a
    new candle timestamp is alerted as oversold and [last_alert_low]
    becomes [now_t], whatever [last_alert_low] was; likewise [above],
    overbought and [last_alert_high]. *)
Theorem crossing_bypasses_cooldown (m : market) (tf : string)
    (tf_st : tf_state) (rsi : float) (ts : Z) (now_t : float) :
  last_zone tf_st = normal ->
  ts <> last_ts tf_st ->
  (classify_zone rsi = below ->
     snd (on_sample m tf tf_st rsi ts now_t)
       = Some (mk_alert OVERSOLD tf (snd m) rsi (fst m)) /\
     last_alert_low (fst (on_sample m tf tf_st rsi ts now_t)) = now_t) /\
  (classify_zone rsi = above ->
     snd (on_sample m tf tf_st rsi ts now_t)
       = Some (mk_alert OVERBOUGHT tf (snd m) rsi (fst m)) /\
     last_alert_high (fst (on_sample m tf tf_st rsi ts now_t)) = now_t).
Proof.
  intros Hzone Hts. pose proof (new_candle_true ts tf_st Hts) as Hnew.
  split; intros Hz.
  - rewrite (on_sample_below _ _ _ _ _ _ Hz).
    unfold crossed_below. rewrite Hnew, Hzone. simpl. now split.
  - rewrite (on_sample_above _ _ _ _ _ _ Hz).
    unfold crossed_above. rewrite Hnew, Hzone. simpl. now split.
Qed.

Lemma crossing_bypasses_cooldown_witness :
  (can_low 1000 (recently_alerted normal) = false /\
   snd (on_sample ("bybit", "BTC/USDT")%string "1m" (recently_alerted normal)
          18 120000 1000)
     = Some (mk_alert OVERSOLD "1m" "BTC/USDT" 18 "bybit")) /\
  (can_high 1000 (recently_alerted normal) = false /\
   snd (on_sample ("bybit", "BTC/USDT")%string "1m" (recently_alerted normal)
          85 120000 1000)
     = Some (mk_alert OVERBOUGHT "1m" "BTC/USDT" 85 "bybit")).
Proof.
  split; (split; [reflexivity|]).
  - apply (crossing_bypasses_cooldown ("bybit", "BTC/USDT")%string "1m"
             (recently_alerted normal) 18 120000 1000); [reflexivity | simpl; lia | reflexivity].
  - apply (crossing_bypasses_cooldown ("bybit", "BTC/USDT")%string "1m"
             (recently_alerted normal) 85 120000 1000); [reflexivity | simpl; lia | reflexivity].
Defined.

(** C2: with the stored zone already [below], a sample still [below] on a
    new candle is alerted exactly when [now_t - last_alert_low >= 300];
    when it is not, the entry still takes the sample's zone and
    timestamp. *)
Theorem still_below_alerts_on_cooldown (m : market) (tf : string)
    (tf_st : tf_state) (rsi : float) (ts : Z) (now_t : float) :
  last_zone tf_st = below ->
  classify_zone rsi = below ->
  ts <> last_ts tf_st ->
  (is_Some (snd (on_sample m tf tf_st rsi ts now_t)) <->
     fge (now_t - last_alert_low tf_st)%float 300%float = true) /\
  (snd (on_sample m tf tf_st rsi ts now_t) = None ->
     last_zone (fst (on_sample m tf tf_st rsi ts now_t)) = classify_zone rsi /\
     last_ts (fst (on_sample m tf tf_st rsi ts now_t)) = ts).
Proof.
  intros Hzone Hz Hts. split.
  - rewrite (on_sample_below _ _ _ _ _ _ Hz).
    unfold crossed_below. rewrite Hzone. simpl. rewrite andb_false_r. simpl.
    change (fge (now_t - last_alert_low tf_st) 300) with (can_low now_t tf_st).
    destruct (can_low now_t tf_st); simpl; split; intros H;
      try done; first [by eexists | by destruct H].
  - intros _. apply on_sample_updates.
Qed.

Lemma still_below_alerts_on_cooldown_witness :
  snd (on_sample ("bybit", "BTC/USDT")%string "1m" (recently_alerted below)
         18 120000 1000) = None /\
  last_zone (fst (on_sample ("bybit", "BTC/USDT")%string "1m"
                    (recently_alerted below) 18 120000 1000)) = below /\
  last_ts (fst (on_sample ("bybit", "BTC/USDT")%string "1m"
                  (recently_alerted below) 18 120000 1000)) = 120000.
Proof.
  split; [reflexivity|].
  apply (still_below_alerts_on_cooldown ("bybit", "BTC/USDT")%string "1m"
           (recently_alerted below) 18 120000 1000);
    [reflexivity | reflexivity | simpl; lia | reflexivity].
Defined.

(** C3: on a sample whose candle timestamp is the stored one neither
    crossing condition holds, whatever the stored and the new zone are;
    an alert is then sent exactly when the sample is [below] (or [above])
    and the cooldown of that side has run out, and this does happen with
    a zone that differs from the stored one. *)
Theorem same_candle_is_no_crossing (m : market) (tf : string)
    (tf_st : tf_state) (rsi : float) (ts : Z) (now_t : float) :
  ts = last_ts tf_st ->
  (forall z : zone,
     crossed_below ts tf_st z = false /\ crossed_above ts tf_st z = false) /\
  (is_Some (snd (on_sample m tf tf_st rsi ts now_t)) <->
     (classify_zone rsi = below /\ can_low now_t tf_st = true) \/
     (classify_zone rsi = above /\ can_high now_t tf_st = true)) /\
  (exists (st0 : tf_state) (rsi0 now0 : float),
     last_zone st0 <> classify_zone rsi0 /\
     is_Some (snd (on_sample m tf st0 rsi0 (last_ts st0) now0))).
Proof.
  intros Hts. pose proof (new_candle_false ts tf_st Hts) as Hnew.
  assert (Hcross : forall z, crossed_below ts tf_st z = false /\
                             crossed_above ts tf_st z = false).
  { intros z. unfold crossed_below, crossed_above. now rewrite Hnew. }
  split; [exact Hcross|]. split.
  - destruct (classify_zone rsi) eqn:Hz.
    + rewrite (on_sample_below _ _ _ _ _ _ Hz).
      rewrite (proj1 (Hcross below)). simpl.
      destruct (can_low now_t tf_st); simpl; split.
      * intros _. now left.
      * intros _. by eexists.
      * intros H. by destruct H.
      * intros [[_ H] | [H _]]; discriminate.
    + rewrite (on_sample_above _ _ _ _ _ _ Hz).
      rewrite (proj2 (Hcross above)). simpl.
      destruct (can_high now_t tf_st); simpl; split.
      * intros _. now right.
      * intros _. by eexists.
      * intros H. by destruct H.
      * intros [[H _] | [_ H]]; discriminate.
    + rewrite (on_sample_normal _ _ _ _ _ _ Hz). simpl. split.
      * intros H. by destruct H.
      * intros [[H _] | [H _]]; discriminate.
  - exists initial_tf_state, 18%float, 1000%float. split.
    + discriminate.
    + by eexists.
Qed.

Lemma same_candle_is_no_crossing_witness :
  crossed_below 0 initial_tf_state below = false /\
  is_Some (snd (on_sample ("bybit", "BTC/USDT")%string "1m" initial_tf_state
                  18 0 1000)).
Proof.
  pose proof (same_candle_is_no_crossing ("bybit", "BTC/USDT")%string "1m"
                initial_tf_state 18 0 1000 eq_refl) as [Hc [Ha _]].
  split.
  - exact (proj1 (Hc below)).
  - apply Ha. left. split; reflexivity.
Defined.

(** C5: a sample that classifies as [normal] sends no alert, whatever the
    stored entry is; so a return from [above] or [below] to [normal] is
    silent. *)
Theorem normal_sample_sends_no_alert (m : market) (tf : string)
    (tf_st : tf_state) (rsi : float) (ts : Z) (now_t : float) :
  classify_zone rsi = normal ->
  snd (on_sample m tf tf_st rsi ts now_t) = None.
Proof. intros Hz. now rewrite (on_sample_normal _ _ _ _ _ _ Hz). Qed.

Lemma normal_sample_sends_no_alert_witness :
  snd (on_sample ("bybit", "BTC/USDT")%string "1m"
         {| last_zone := above; last_ts := 60000;
            last_alert_low := 0.0%float; last_alert_high := 0.0%float |}
         50 120000 1000) = None /\
  snd (on_sample ("bybit", "BTC/USDT")%string "1m"
         {| last_zone := below; last_ts := 60000;
            last_alert_low := 0.0%float; last_alert_high := 0.0%float |}
         50 120000 1000) = None.
Proof.
  split; apply normal_sample_sends_no_alert; reflexivity.
Defined.

(** C6: a cycle on a timeframe of the table succeeds and leaves, in the
    entry of that timeframe, the zone of the sample just fetched and its
    candle timestamp, whether or not an alert was sent. *)
Theorem cycle_updates_zone_and_timestamp (m : market)
    (state : gmap string tf_state) (tf : string) (tf_st : tf_state)
    (rsi : float) (ts : Z) (now_t : float) :
  state !! tf = Some tf_st ->
  exists (state' : gmap string tf_state) (alert_text : option alert)
         (tf_st' : tf_state),
    process_sample m state tf rsi ts now_t = Some (state', alert_text) /\
    state' !! tf = Some tf_st' /\
    last_zone tf_st' = classify_zone rsi /\
    last_ts tf_st' = ts.
Proof.
  intros Hlook. unfold process_sample. rewrite Hlook.
  pose proof (on_sample_updates m tf tf_st rsi ts now_t) as [Hz Ht].
  destruct (on_sample m tf tf_st rsi ts now_t) as [tf_st' alert_text].
  exists (<[tf := tf_st']> state), alert_text, tf_st'.
  split; [reflexivity|]. split; [apply lookup_insert_eq|]. now split.
Qed.

Lemma cycle_updates_zone_and_timestamp_witness :
  exists (state' : gmap string tf_state) (alert_text : option alert)
         (tf_st' : tf_state),
    process_sample ("bybit", "BTC/USDT")%string initial_state "15m"
      50 900000 1000 = Some (state', alert_text) /\
    state' !! "15m"%string = Some tf_st' /\
    last_zone tf_st' = classify_zone 50 /\
    last_ts tf_st' = 900000.
Proof.
  apply (cycle_updates_zone_and_timestamp ("bybit", "BTC/USDT")%string
           initial_state "15m" initial_tf_state 50 900000 1000).
  reflexivity.
Defined.

(** The other entries of the table are left as they were. *)
Lemma process_sample_other (m : market) (state state' : gmap string tf_state)
    (tf tf' : string) (rsi : float) (ts : Z) (now_t : float)
    (alert_text : option alert) :
  process_sample m state tf rsi ts now_t = Some (state', alert_text) ->
  tf <> tf' -> state' !! tf' = state !! tf'.
Proof.
  unfold process_sample. destruct (state !! tf) as [tf_st|]; [|discriminate].
  destruct (on_sample m tf tf_st rsi ts now_t) as [tf_st' a].
  intros [= <- _] Hne. now apply lookup_insert_ne.
Qed.

(** Every timeframe starts from [initial_tf_state]. *)
Lemma initial_state_lookup (tf : string) (tf_st : tf_state) :
  initial_state !! tf = Some tf_st -> tf_st = initial_tf_state.
Proof.
  unfold initial_state, TIMEFRAMES. simpl.
  repeat (rewrite lookup_insert; case_decide; [congruence|]).
  rewrite lookup_empty. discriminate.
Qed.

(** C10: in the initial state, once the clock reads 300 seconds or more,
    both cooldown conditions hold, so the first sample classified [below]
    (or [above]) is alerted for every candle timestamp, the stored
    timestamp 0 included, where it is no crossing. *)
Theorem first_extreme_sample_alerts (m : market) (tf : string)
    (tf_st : tf_state) (rsi : float) (ts : Z) (now_t : float) :
  initial_state !! tf = Some tf_st ->
  fge now_t 300%float = true ->
  can_low now_t tf_st = true /\ can_high now_t tf_st = true /\
  crossed_below 0 tf_st (classify_zone rsi) = false /\
  crossed_above 0 tf_st (classify_zone rsi) = false /\
  (classify_zone rsi = below ->
     snd (on_sample m tf tf_st rsi ts now_t)
       = Some (mk_alert OVERSOLD tf (snd m) rsi (fst m))) /\
  (classify_zone rsi = above ->
     snd (on_sample m tf tf_st rsi ts now_t)
       = Some (mk_alert OVERBOUGHT tf (snd m) rsi (fst m))).
Proof.
  intros Hinit Hnow. apply initial_state_lookup in Hinit. subst tf_st.
  assert (Hlow : can_low now_t initial_tf_state = true).
  { unfold can_low. simpl. now rewrite fge_sub_zero. }
  assert (Hhigh : can_high now_t initial_tf_state = true).
  { unfold can_high. simpl. now rewrite fge_sub_zero. }
  split; [exact Hlow|]. split; [exact Hhigh|].
  split; [reflexivity|]. split; [reflexivity|]. split; intros Hz.
  - rewrite (on_sample_below _ _ _ _ _ _ Hz), Hlow, orb_true_r. reflexivity.
  - rewrite (on_sample_above _ _ _ _ _ _ Hz), Hhigh, orb_true_r. reflexivity.
Qed.

Lemma first_extreme_sample_alerts_witness :
  snd (on_sample ("bybit", "BTC/USDT")%string "4h" initial_tf_state 18 0 1000)
    = Some (mk_alert OVERSOLD "4h" "BTC/USDT" 18 "bybit") /\
  snd (on_sample ("bybit", "BTC/USDT")%string "4h" initial_tf_state 85 0 1000)
    = Some (mk_alert OVERBOUGHT "4h" "BTC/USDT" 85 "bybit").
Proof.
  split.
  - apply (first_extreme_sample_alerts ("bybit", "BTC/USDT")%string "4h"
             initial_tf_state 18 0 1000); reflexivity.
  - apply (first_extreme_sample_alerts ("bybit", "BTC/USDT")%string "4h"
             initial_tf_state 85 0 1000); reflexivity.
Defined.

(** ** Market source selector *)

Section SelectorProperties.

Variable w : world.

Lemma latest_cons (last_err : option exn) (e : exn) (es : list exn) :
  latest last_err (e :: es) = latest (Some e) es.
Proof. unfold latest. rewrite last_cons. now destruct (last es). Qed.

Lemma latest_None (es : list exn) : latest None es = last es.
Proof. unfold latest. now destruct (last es). Qed.

Lemma latest_app (last_err : option exn) (es1 es2 : list exn) :
  latest last_err (es1 ++ es2) = latest (latest last_err es1) es2.
Proof. unfold latest. rewrite last_app. now destruct (last es2). Qed.

Lemma find_app {A} (P : A -> bool) (l1 l2 : list A) :
  List.find P (l1 ++ l2) =
    match List.find P l1 with Some x => Some x | None => List.find P l2 end.
Proof. induction l1 as [|x l1 IH]; simpl; [reflexivity|]. now destruct (P x). Qed.

Lemma take_through_app {A} (P : A -> bool) (l1 l2 : list A) :
  take_through P (l1 ++ l2) =
    match List.find P l1 with
    | Some _ => take_through P l1
    | None => l1 ++ take_through P l2
    end.
Proof.
  induction l1 as [|x l1 IH]; simpl; [reflexivity|].
  destruct (P x); [reflexivity|]. rewrite IH. now destruct (List.find P l1).
Qed.

Lemma take_through_none {A} (P : A -> bool) (l : list A) :
  List.find P l = None -> take_through P l = l.
Proof.
  induction l as [|x l IH]; simpl; [reflexivity|].
  destruct (P x); [discriminate|]. intros H. now rewrite IH.
Qed.

Lemma take_through_prefix {A} (P : A -> bool) (l : list A) :
  take_through P l `prefix_of` l.
Proof.
  induction l as [|x l IH]; simpl; [done|].
  destruct (P x); [|by apply prefix_cons].
  by apply prefix_cons, prefix_nil.
Qed.

Lemma probes_app (t1 t2 : list event) : probes (t1 ++ t2) = probes t1 ++ probes t2.
Proof. apply omap_app. Qed.

Lemma loads_app (t1 t2 : list event) : loads (t1 ++ t2) = loads t1 ++ loads t2.
Proof. apply omap_app. Qed.

Lemma probes_cons (ev : event) (t : list event) :
  probes (ev :: t) =
    match ev with
    | EvFetch ex_id sym _ _ _ => (ex_id, sym) :: probes t
    | _ => probes t
    end.
Proof. now destruct ev. Qed.

Lemma loads_cons (ev : event) (t : list event) :
  loads (ev :: t) =
    match ev with
    | EvLoadMarkets ex_id _ => ex_id :: loads t
    | _ => loads t
    end.
Proof. now destruct ev. Qed.

(** One round of the inner loop. *)
Lemma probe_symbols_cons (ex_id sym : string) (syms : list string)
    (last_err : option exn) :
  probe_symbols w ex_id (sym :: syms) last_err =
    match ccxt_fetch_ohlcv w ex_id sym "1m" 10 with
    | Ok candles =>
        if working candles then
          (Return (ex_id, sym),
           [EvFetch ex_id sym "1m" 10 (Ok candles);
            EvPrint ("Using " ++ ex_id ++ " / " ++ sym)])
        else
          (fst (probe_symbols w ex_id syms last_err),
           EvFetch ex_id sym "1m" 10 (Ok candles)
             :: snd (probe_symbols w ex_id syms last_err))
    | Raise e =>
        (fst (probe_symbols w ex_id syms (Some e)),
         EvFetch ex_id sym "1m" 10 (Raise e)
           :: EvPrint (ex_id ++ " " ++ sym ++ " failed: " ++ e)
           :: EvSleep 1
           :: snd (probe_symbols w ex_id syms (Some e)))
    end.
Proof.
  cbn [probe_symbols]. unfold io_bind, fetch_ohlcv. cbn [fst snd].
  destruct (ccxt_fetch_ohlcv w ex_id sym "1m" 10) as [candles|e].
  - now destruct (working candles).
  - reflexivity.
Qed.

(** One round of the outer loop. *)
Lemma pick_from_cons (ex_id : string) (syms : list string)
    (rest : list (string * list string)) (last_err : option exn) :
  pick_from w ((ex_id, syms) :: rest) last_err =
    match ccxt_make w ex_id with
    | Raise e =>
        (fst (pick_from w rest (Some e)),
         EvMake ex_id (Raise e)
           :: EvPrint ("Could not init " ++ ex_id ++ ": " ++ e)
           :: snd (pick_from w rest (Some e)))
    | Ok u =>
        let x := probe_symbols w ex_id syms last_err in
        (match fst x with
         | Return m => Ok m
         | Exhausted last_err' => fst (pick_from w rest last_err')
         end,
         EvMake ex_id (Ok u)
           :: EvLoadMarkets ex_id (ccxt_load_markets w ex_id)
           :: match ccxt_load_markets w ex_id with
              | Raise e => [EvPrint (ex_id ++ " load_markets warn: " ++ e)]
              | Ok _ => []
              end
           ++ snd x
           ++ match fst x with
              | Return _ => []
              | Exhausted last_err' => EvSleep 1 :: snd (pick_from w rest last_err')
              end)
    end.
Proof.
  cbn [pick_from]. unfold io_bind, make_exchange, load_markets. cbn [fst snd].
  destruct (ccxt_make w ex_id) as [u|e]; [|reflexivity].
  cbn [fst snd].
  destruct (ccxt_load_markets w ex_id) as [u'|e];
    destruct (fst (probe_symbols w ex_id syms last_err)); reflexivity.
Qed.

(** The inner loop returns the first candidate whose probe works, having
    probed the candidates before it, in order; when none works it leaves
    [last_err] at the last probe error. *)
Lemma probe_symbols_spec (ex_id : string) (syms : list string)
    (last_err : option exn) :
  fst (probe_symbols w ex_id syms last_err) =
    match List.find (probe_works w) (pair ex_id <$> syms) with
    | Some m => Return m
    | None =>
        Exhausted (latest last_err
                     (flat_map (probe_error w) (pair ex_id <$> syms)))
    end /\
  probes (snd (probe_symbols w ex_id syms last_err)) =
    take_through (probe_works w) (pair ex_id <$> syms) /\
  loads (snd (probe_symbols w ex_id syms last_err)) = [].
Proof.
  revert last_err. induction syms as [|sym syms IH]; intros last_err.
  - repeat split.
  - rewrite probe_symbols_cons. cbn [fmap list_fmap List.find take_through flat_map].
    unfold probe_works at 1 3, probe_error at 1. cbn [fst snd].
    destruct (ccxt_fetch_ohlcv w ex_id sym "1m" 10) as [candles|e].
    + destruct (working candles); [repeat split|].
      destruct (IH last_err) as (Hr & Hp & Hl). cbn [fst snd app].
      split; [exact Hr|]. rewrite probes_cons, loads_cons, Hp. now split.
    + destruct (IH (Some e)) as (Hr & Hp & Hl). cbn [fst snd app].
      rewrite latest_cons. split; [exact Hr|].
      rewrite !probes_cons, !loads_cons, Hp. now split.
Qed.

(** The whole selection, from any starting [last_err]. *)
Lemma pick_from_spec (cands : list (string * list string))
    (last_err : option exn) :
  fst (pick_from w cands last_err) =
    match List.find (probe_works w) (attempts w cands) with
    | Some m => Ok m
    | None => Raise (no_market (latest last_err (init_and_probe_errors w cands)))
    end /\
  probes (snd (pick_from w cands last_err)) =
    take_through (probe_works w) (attempts w cands).
Proof.
  revert last_err. induction cands as [|[ex_id syms] rest IH]; intros last_err.
  - split; reflexivity.
  - rewrite pick_from_cons. cbn [attempts init_and_probe_errors].
    unfold initialises. destruct (ccxt_make w ex_id) as [u|e].
    + destruct (probe_symbols_spec ex_id syms last_err) as (Hr & Hp & _).
      cbn zeta. cbn [fst snd].
      rewrite find_app, take_through_app, latest_app.
      change (EvMake ex_id (Ok u) :: EvLoadMarkets ex_id (ccxt_load_markets w ex_id)
                :: ?t) with ([EvMake ex_id (Ok u);
                              EvLoadMarkets ex_id (ccxt_load_markets w ex_id)] ++ t).
      rewrite !probes_app, Hp, Hr.
      assert (Hwarn : probes match ccxt_load_markets w ex_id with
                             | Ok _ => []
                             | Raise e =>
                                 [EvPrint (ex_id ++ " load_markets warn: " ++ e)]
                             end = []).
      { now destruct (ccxt_load_markets w ex_id). }
      rewrite Hwarn.
      destruct (List.find (probe_works w) (pair ex_id <$> syms)) as [m|] eqn:Hf.
      * split; [reflexivity|]. rewrite !probes_cons. cbn [app].
        now rewrite app_nil_r.
      * destruct (IH (latest last_err
                        (flat_map (probe_error w) (pair ex_id <$> syms))))
          as (Hr' & Hp').
        split; [exact Hr'|].
        rewrite !probes_cons, Hp', (take_through_none _ _ Hf). reflexivity.
    + destruct (IH (Some e)) as (Hr' & Hp'). cbn [fst snd app].
      rewrite latest_cons. split; [exact Hr'|].
      now rewrite !probes_cons.
Qed.

Lemma makes_cons (ev : event) (t : list event) :
  makes (ev :: t) =
    match ev with
    | EvMake ex_id _ => ex_id :: makes t
    | _ => makes t
    end.
Proof. now destruct ev. Qed.

Lemma probe_symbols_makes (ex_id : string) (syms : list string)
    (last_err : option exn) :
  makes (snd (probe_symbols w ex_id syms last_err)) = [].
Proof.
  revert last_err. induction syms as [|sym syms IH]; intros last_err.
  - reflexivity.
  - rewrite probe_symbols_cons.
    destruct (ccxt_fetch_ohlcv w ex_id sym "1m" 10) as [candles|e].
    + destruct (working candles); [reflexivity|].
      cbn [snd]. rewrite makes_cons. apply IH.
    + cbn [snd]. rewrite !makes_cons. apply IH.
Qed.

(** The providers are built in the order of the table. *)
Lemma pick_from_makes (cands : list (string * list string))
    (last_err : option exn) :
  makes (snd (pick_from w cands last_err)) `prefix_of` (fst <$> cands).
Proof.
  revert last_err. induction cands as [|[ex_id syms] rest IH]; intros last_err.
  - done.
  - rewrite pick_from_cons. destruct (ccxt_make w ex_id) as [u|e].
    + cbn zeta. cbn [fst snd fmap list_fmap]. rewrite !makes_cons.
      apply prefix_cons. unfold makes. rewrite !omap_app.
      fold (makes (snd (probe_symbols w ex_id syms last_err))).
      rewrite probe_symbols_makes.
      assert (Hwarn : omap (fun ev => match ev with
                                      | EvMake ex_id0 _ => Some ex_id0
                                      | _ => None
                                      end)
                        match ccxt_load_markets w ex_id with
                        | Ok _ => []
                        | Raise e =>
                            [EvPrint (ex_id ++ " load_markets warn: " ++ e)]
                        end = []).
      { now destruct (ccxt_load_markets w ex_id). }
      rewrite Hwarn. cbn [app].
      destruct (fst (probe_symbols w ex_id syms last_err)) as [m|le'].
      * apply prefix_nil.
      * apply IH.
    + cbn [fst snd fmap list_fmap]. rewrite !makes_cons.
      apply prefix_cons, IH.
Qed.

Lemma attempts_app (c1 c2 : list (string * list string)) :
  attempts w (c1 ++ c2) = attempts w c1 ++ attempts w c2.
Proof.
  induction c1 as [|[ex_id syms] c1 IH]; [reflexivity|].
  cbn [app attempts]. now rewrite IH, app_assoc.
Qed.

(** Only providers that initialise are attempted. *)
Lemma attempts_initialises (cands : list (string * list string))
    (ex_id sym : string) :
  (ex_id, sym) ∈ attempts w cands -> initialises w ex_id = true.
Proof.
  induction cands as [|[ex_id' syms] rest IH]; cbn [attempts].
  - intros H. by apply elem_of_nil in H.
  - intros [H|H]%elem_of_app; [|by apply IH].
    destruct (initialises w ex_id') eqn:Hi; [|by apply elem_of_nil in H].
    apply list_elem_of_fmap in H as (s & [= -> _] & _). exact Hi.
Qed.

(** [load_markets] is only called on providers that initialise. *)
Lemma loads_initialises (cands : list (string * list string))
    (last_err : option exn) (ex_id : string) :
  ex_id ∈ loads (snd (pick_from w cands last_err)) -> initialises w ex_id = true.
Proof.
  revert last_err. induction cands as [|[ex_id' syms] rest IH]; intros last_err.
  - intros H. by apply elem_of_nil in H.
  - rewrite pick_from_cons.
    destruct (ccxt_make w ex_id') as [u|e] eqn:Hmk.
    + cbn zeta. cbn [fst snd].
      destruct (probe_symbols_spec ex_id' syms last_err) as (_ & _ & Hl).
      change (EvMake ex_id' (Ok u) :: EvLoadMarkets ex_id' (ccxt_load_markets w ex_id')
                :: ?t) with ([EvMake ex_id' (Ok u);
                              EvLoadMarkets ex_id' (ccxt_load_markets w ex_id')] ++ t).
      rewrite !loads_app, Hl.
      assert (Hwarn : loads match ccxt_load_markets w ex_id' with
                            | Ok _ => []
                            | Raise e =>
                                [EvPrint (ex_id' ++ " load_markets warn: " ++ e)]
                            end = []).
      { now destruct (ccxt_load_markets w ex_id'). }
      rewrite Hwarn, !loads_cons. cbn [app].
      intros [->|H]%elem_of_cons.
      * unfold initialises. now rewrite Hmk.
      * destruct (fst (probe_symbols w ex_id' syms last_err)) as [m|le'].
        -- by apply elem_of_nil in H.
        -- rewrite loads_cons in H. exact (IH _ H).
    + cbn [fst snd]. rewrite !loads_cons. apply IH.
Qed.

End SelectorProperties.

Lemma attempts_markets_loaded (w : world) (cands : list (string * list string)) :
  attempts (with_markets_loaded w) cands = attempts w cands.
Proof.
  induction cands as [|[ex_id syms] rest IH]; [reflexivity|].
  cbn [attempts]. rewrite IH.
  now change (initialises (with_markets_loaded w)) with (initialises w).
Qed.

Lemma errors_markets_loaded (w : world) (cands : list (string * list string)) :
  init_and_probe_errors (with_markets_loaded w) cands
    = init_and_probe_errors w cands.
Proof.
  induction cands as [|[ex_id syms] rest IH]; [reflexivity|].
  cbn [init_and_probe_errors]. rewrite IH.
  change (ccxt_make (with_markets_loaded w)) with (ccxt_make w).
  now change (probe_error (with_markets_loaded w)) with (probe_error w).
Qed.

(** The outcome of a selection does not depend on [load_markets]. *)
Lemma pick_from_markets_loaded (w : world) (cands : list (string * list string))
    (last_err : option exn) :
  fst (pick_from w cands last_err) =
    fst (pick_from (with_markets_loaded w) cands last_err) /\
  probes (snd (pick_from w cands last_err)) =
    probes (snd (pick_from (with_markets_loaded w) cands last_err)).
Proof.
  destruct (pick_from_spec w cands last_err) as [-> ->].
  destruct (pick_from_spec (with_markets_loaded w) cands last_err) as [-> ->].
  rewrite attempts_markets_loaded, errors_markets_loaded.
  now change (probe_works (with_markets_loaded w)) with (probe_works w).
Qed.

(** C7: a provider that fails to initialise is logged and skipped: the
    selection goes on with the next provider, and neither [load_markets]
    nor any probe is ever called on it.  A provider that fails to load
    its markets is logged as a warning and its candidates are probed all
    the same: the selection ends as if the load had succeeded.  Neither
    failure is fatal. *)
Theorem provider_failure_is_not_fatal (w : world) (ex_id : string)
    (syms : list string) (rest : list (string * list string))
    (last_err : option exn) (e : exn) :
  (ccxt_make w ex_id = Raise e ->
     pick_from w ((ex_id, syms) :: rest) last_err =
       (fst (pick_from w rest (Some e)),
        EvMake ex_id (Raise e)
          :: EvPrint ("Could not init " ++ ex_id ++ ": " ++ e)
          :: snd (pick_from w rest (Some e))) /\
     (forall cands le sym, (ex_id, sym) ∉ probes (snd (pick_from w cands le))) /\
     (forall cands le, ex_id ∉ loads (snd (pick_from w cands le)))) /\
  (ccxt_make w ex_id = Ok tt ->
   ccxt_load_markets w ex_id = Raise e ->
     (exists t,
        snd (pick_from w ((ex_id, syms) :: rest) last_err) =
          EvMake ex_id (Ok tt)
            :: EvLoadMarkets ex_id (Raise e)
            :: EvPrint (ex_id ++ " load_markets warn: " ++ e)
            :: snd (probe_symbols w ex_id syms last_err) ++ t) /\
     probes (snd (probe_symbols w ex_id syms last_err)) =
       take_through (probe_works w) (pair ex_id <$> syms) /\
     fst (pick_from w ((ex_id, syms) :: rest) last_err) =
       fst (pick_from (with_markets_loaded w) ((ex_id, syms) :: rest) last_err)).
Proof.
  split.
  - intros Hmk.
    assert (Hinit : initialises w ex_id = false).
    { unfold initialises. now rewrite Hmk. }
    split; [|split].
    + rewrite pick_from_cons. now rewrite Hmk.
    + intros cands le sym Hin.
      destruct (pick_from_spec w cands le) as [_ Hp]. rewrite Hp in Hin.
      eapply elem_of_prefix in Hin; [|apply take_through_prefix].
      apply attempts_initialises in Hin. congruence.
    + intros cands le Hin. apply loads_initialises in Hin. congruence.
  - intros Hmk Hld. split; [|split].
    + rewrite pick_from_cons, Hmk, Hld. cbn zeta. cbn [fst snd app]. eauto.
    + apply probe_symbols_spec.
    + apply pick_from_markets_loaded.
Qed.

Lemma provider_failure_is_not_fatal_witness :
  (("bybit", "BTC/USDT")%string
     ∉ probes (snd (pick_working_market world_no_bybit))) /\
  fst (pick_working_market world_bybit_markets_down) =
    fst (pick_working_market (with_markets_loaded world_bybit_markets_down)).
Proof.
  split.
  - apply (proj1 (provider_failure_is_not_fatal world_no_bybit "bybit" []
                    [] None "module 'ccxt' has no attribute 'bybit'")).
    reflexivity.
  - apply (proj2 (provider_failure_is_not_fatal world_bybit_markets_down "bybit"
                    ["BTC/USDT"%string] (tail SYMBOL_CANDIDATES) None
                    "markets unavailable")); reflexivity.
Defined.

(** C7, as claimed, fails: [load_markets] raises on bybit and the
    selector still probes bybit's candidate, and selects it. *)
Lemma load_failure_still_probes :
  ccxt_load_markets world_bybit_markets_down "bybit" = Raise "markets unavailable"%string /\
  pick_working_market world_bybit_markets_down =
    (Ok ("bybit", "BTC/USDT")%string,
     [EvMake "bybit" (Ok tt);
      EvLoadMarkets "bybit" (Raise "markets unavailable"%string);
      EvPrint "bybit load_markets warn: markets unavailable";
      EvFetch "bybit" "BTC/USDT" "1m" 10 (Ok [full_candle]);
      EvPrint "Using bybit / BTC/USDT"]).
Proof. split; reflexivity. Qed.

(** C8: a selection builds the providers in the order of the table, and
    its probes are the candidates of the providers that initialise, in
    the order of the table, up to and with the first
    whose probe answers a list of candles whose first candle has five or
    more fields; that pair is returned.  With the table split in two, no
    candidate of the later part is probed unless all those of the earlier
    part were, and failed.  When no probe works the selection raises with
    the last error of an initialisation or of a probe ([None] if there
    was none); the errors of [load_markets] are not recorded. *)
Theorem selector_first_working_in_order (w : world)
    (cands earlier later : list (string * list string)) :
  makes (snd (pick_from w cands None)) `prefix_of` (fst <$> cands) /\
  probes (snd (pick_from w cands None)) =
    take_through (probe_works w) (attempts w cands) /\
  fst (pick_from w cands None) =
    match List.find (probe_works w) (attempts w cands) with
    | Some m => Ok m
    | None =>
        Raise ("No working exchange/symbol. Last error: "
                 ++ default "None" (last (init_and_probe_errors w cands)))%string
    end /\
  probes (snd (pick_from w (earlier ++ later) None)) =
    match List.find (probe_works w) (attempts w earlier) with
    | Some _ => take_through (probe_works w) (attempts w earlier)
    | None => attempts w earlier ++ take_through (probe_works w) (attempts w later)
    end.
Proof.
  destruct (pick_from_spec w cands None) as [Hr Hp].
  split; [apply pick_from_makes|]. split; [exact Hp|]. split.
  { rewrite Hr. unfold no_market, fmt_err. now rewrite latest_None. }
  destruct (pick_from_spec w (earlier ++ later) None) as [_ ->].
  now rewrite attempts_app, take_through_app.
Qed.

(** C8, as claimed, fails twice.  A probe that answers a short first
    candle before a full one is passed over, although it returned a
    candle of five or more fields.  And when nothing works the error
    raised carries the bybit time-out, although the last error observed
    was the one of coinbase's [load_markets]. *)
Lemma selector_claim_fails :
  (List.find (claimed_probe_works world_short_first_candle)
     (attempts world_short_first_candle SYMBOL_CANDIDATES)
     = Some ("bybit", "BTC/USDT")%string /\
   fst (pick_working_market world_short_first_candle)
     = Ok ("okx", "BTC/USDT")%string) /\
  (last_observed_error (snd (pick_working_market world_nothing_works))
     = Some "coinbase markets unavailable"%string /\
   fst (pick_working_market world_nothing_works)
     = Raise "No working exchange/symbol. Last error: bybit timeout"%string).
Proof. repeat split. Qed.

(** ** Notifier *)

(** With either credential empty nothing is posted. *)
Lemma send_telegram_disabled (w : world) (environ : gmap string string)
    (text : string) :
  BOT_TOKEN environ = ""%string \/ CHAT_ID environ = ""%string ->
  send_telegram w environ text =
    (Ok tt, [EvPrint ("(TELEGRAM DISABLED) " ++ text)]).
Proof.
  intros H. unfold send_telegram.
  assert (Hoff : str_not (BOT_TOKEN environ) || str_not (CHAT_ID environ) = true).
  { destruct H as [-> | ->]; [reflexivity | apply orb_true_r]. }
  now rewrite Hoff.
Qed.

(** C9: with [BOT_TOKEN] and [CHAT_ID] unset, [send_telegram] posts
    nothing, prints the message it would have sent, and returns
    normally. *)
Theorem send_telegram_unset_credentials (w : world)
    (environ : gmap string string) (text : string) :
  environ !! "BOT_TOKEN"%string = None ->
  environ !! "CHAT_ID"%string = None ->
  send_telegram w environ text =
    (Ok tt, [EvPrint ("(TELEGRAM DISABLED) " ++ text)]) /\
  (forall url data timeout r,
     EvPost url data timeout r ∉ snd (send_telegram w environ text)).
Proof.
  intros Htok _.
  assert (Hsend := send_telegram_disabled w environ text).
  unfold BOT_TOKEN at 1 in Hsend. rewrite Htok in Hsend.
  specialize (Hsend (or_introl eq_refl)). rewrite Hsend. split; [reflexivity|].
  intros url data timeout r Hin. cbn [snd] in Hin.
  apply list_elem_of_singleton in Hin. discriminate.
Qed.

Lemma send_telegram_unset_credentials_witness :
  send_telegram world_no_bybit ∅ "OVERSOLD on 1m" =
    (Ok tt, [EvPrint "(TELEGRAM DISABLED) OVERSOLD on 1m"]).
Proof.
  apply (send_telegram_unset_credentials world_no_bybit ∅ "OVERSOLD on 1m");
    reflexivity.
Defined.

(** ** The scenario of four candles

    RSI 30, 18, 15, 19 on four new candles of one timeframe: no alert,
    an alert on the crossing, none 60 seconds later, one again 300
    seconds after the first. *)
Example four_candles :
  let m := ("bybit", "BTC/USDT")%string in
  let '(s1, a1) := on_sample m "1m" initial_tf_state 30 60000 1000 in
  let '(s2, a2) := on_sample m "1m" s1 18 120000 1060 in
  let '(s3, a3) := on_sample m "1m" s2 15 180000 1120 in
  let '(s4, a4) := on_sample m "1m" s3 19 240000 1360 in
  (alert_side <$> a1, alert_side <$> a2, alert_side <$> a3, alert_side <$> a4)
    = (None, Some OVERSOLD, None, Some OVERSOLD) /\
  last_alert_low s4 = 1360%float.
Proof. split; reflexivity. Qed.

(** * Further properties

    ** Zone classifier *)

Lemma SFleb_SFltb_below (a b : spec_float) (m : positive) (e : Z) :
  SFleb a b = true -> SFltb b (S754_finite false m e) = true ->
  SFltb a (S754_finite false m e) = true.
Proof.
  unfold SFleb, SFltb, SFcompare.
  destruct a as [sa | sa | | sa ma ea]; destruct b as [sb | sb | | sb mb eb];
    try destruct sa; try destruct sb; try discriminate; try reflexivity.
  all: rewrite ?Pos.compare_cont_spec; cbn [Pos.switch_Eq].
  all: repeat match goal with
       | |- context [Z.compare ?x ?y] => destruct (Z.compare_spec x y)
       | |- context [Pos.compare ?x ?y] => destruct (Pos.compare_spec x y)
       end; cbn; try discriminate; try reflexivity; try lia.
Qed.

Lemma SFleb_SFltb_above (a b : spec_float) (m : positive) (e : Z) :
  SFleb a b = true -> SFltb (S754_finite false m e) a = true ->
  SFltb (S754_finite false m e) b = true.
Proof.
  unfold SFleb, SFltb, SFcompare.
  destruct a as [sa | sa | | sa ma ea]; destruct b as [sb | sb | | sb mb eb];
    try destruct sa; try destruct sb; try discriminate; try reflexivity.
  all: rewrite ?Pos.compare_cont_spec; cbn [Pos.switch_Eq].
  all: repeat match goal with
       | |- context [Z.compare ?x ?y] => destruct (Z.compare_spec x y)
       | |- context [Pos.compare ?x ?y] => destruct (Pos.compare_spec x y)
       end; cbn; try discriminate; try reflexivity; try lia.
Qed.

(** X1: the classification is monotone: of two RSI values the larger one
    never falls in a lower zone. *)
Theorem classify_zone_monotone (r1 r2 : float) :
  PrimFloat.leb r1 r2 = true ->
  zone_rank (classify_zone r1) <= zone_rank (classify_zone r2).
Proof.
  intros Hle. rewrite leb_spec in Hle.
  assert (Hlo : flt r2 LOW_THRESH = true -> flt r1 LOW_THRESH = true).
  { unfold flt. rewrite !ltb_spec, Prim2SF_LOW_THRESH.
    now apply SFleb_SFltb_below. }
  assert (Hhi : fgt r1 HIGH_THRESH = true -> fgt r2 HIGH_THRESH = true).
  { unfold fgt. rewrite !ltb_spec, Prim2SF_HIGH_THRESH.
    now apply SFleb_SFltb_above. }
  pose proof (flt_low_not_fgt_high r2) as Hex.
  unfold classify_zone.
  destruct (flt r1 LOW_THRESH); [destruct (flt r2 LOW_THRESH);
    [simpl; lia | destruct (fgt r2 HIGH_THRESH); simpl; lia]|].
  destruct (flt r2 LOW_THRESH); [now specialize (Hlo eq_refl)|].
  destruct (fgt r1 HIGH_THRESH).
  - rewrite (Hhi eq_refl). simpl. lia.
  - destruct (fgt r2 HIGH_THRESH); simpl; lia.
Qed.

Lemma classify_zone_monotone_witness :
  zone_rank (classify_zone 19.5) <= zone_rank (classify_zone 80.5).
Proof. apply classify_zone_monotone. reflexivity. Defined.

(** ** Alert decision engine *)

(** X2: an alert agrees with the sample that caused it: it is an
    oversold alert only for an RSI under 20.0 and an overbought alert
    only for an RSI over 80.0, and it carries that RSI, the timeframe and
    the market of the cycle. *)
Theorem alert_agrees_with_sample (m : market) (tf : string)
    (tf_st : tf_state) (rsi : float) (ts : Z) (now_t : float) (a : alert) :
  snd (on_sample m tf tf_st rsi ts now_t) = Some a ->
  (alert_side a = OVERSOLD /\ flt rsi 20.0%float = true \/
   alert_side a = OVERBOUGHT /\ fgt rsi 80.0%float = true) /\
  alert_rsi a = rsi /\ alert_tf a = tf /\
  alert_symbol a = snd m /\ alert_exchange a = fst m.
Proof.
  change 20.0%float with LOW_THRESH. change 80.0%float with HIGH_THRESH.
  destruct (classify_zone rsi) eqn:Hz.
  - rewrite (on_sample_below _ _ _ _ _ _ Hz).
    destruct (crossed_below ts tf_st below || can_low now_t tf_st);
      [|discriminate].
    intros [= <-]. split; [left; split; [reflexivity|]|by repeat split].
    unfold classify_zone in Hz. destruct (flt rsi LOW_THRESH); [reflexivity|].
    destruct (fgt rsi HIGH_THRESH); discriminate.
  - rewrite (on_sample_above _ _ _ _ _ _ Hz).
    destruct (crossed_above ts tf_st above || can_high now_t tf_st);
      [|discriminate].
    intros [= <-]. split; [right; split; [reflexivity|]|by repeat split].
    unfold classify_zone in Hz. destruct (flt rsi LOW_THRESH); [discriminate|].
    destruct (fgt rsi HIGH_THRESH); [reflexivity | discriminate].
  - rewrite (on_sample_normal _ _ _ _ _ _ Hz). discriminate.
Qed.

Lemma alert_agrees_with_sample_witness :
  flt 18 20.0%float = true.
Proof.
  destruct (alert_agrees_with_sample ("bybit", "BTC/USDT")%string "1m"
              initial_tf_state 18 60000 1000
              (mk_alert OVERSOLD "1m" "BTC/USDT" 18 "bybit") eq_refl)
    as [[[_ H] | [H _]] _]; [exact H | discriminate H].
Defined.

(** X3: a cycle moves an alert time only when it sends an alert of that
    side, and then to the time of the cycle; the other alert time is
    kept. *)
Theorem alert_times_move_only_on_alert (m : market) (tf : string)
    (tf_st : tf_state) (rsi : float) (ts : Z) (now_t : float) :
  match snd (on_sample m tf tf_st rsi ts now_t) with
  | Some a =>
      match alert_side a with
      | OVERSOLD =>
          last_alert_low (fst (on_sample m tf tf_st rsi ts now_t)) = now_t /\
          last_alert_high (fst (on_sample m tf tf_st rsi ts now_t))
            = last_alert_high tf_st
      | OVERBOUGHT =>
          last_alert_low (fst (on_sample m tf tf_st rsi ts now_t))
            = last_alert_low tf_st /\
          last_alert_high (fst (on_sample m tf tf_st rsi ts now_t)) = now_t
      end
  | None =>
      last_alert_low (fst (on_sample m tf tf_st rsi ts now_t))
        = last_alert_low tf_st /\
      last_alert_high (fst (on_sample m tf tf_st rsi ts now_t))
        = last_alert_high tf_st
  end.
Proof.
  destruct (classify_zone rsi) eqn:Hz.
  - rewrite (on_sample_below _ _ _ _ _ _ Hz).
    now destruct (crossed_below ts tf_st below || can_low now_t tf_st).
  - rewrite (on_sample_above _ _ _ _ _ _ Hz).
    now destruct (crossed_above ts tf_st above || can_high now_t tf_st).
  - now rewrite (on_sample_normal _ _ _ _ _ _ Hz).
Qed.

(** X4: after an alert at time [t], a further sample of the same zone is
    silent as long as the cooldown of 300 seconds since [t] has not run
    out, whatever its candle timestamp. *)
Theorem no_second_alert_within_cooldown (m : market) (tf : string)
    (tf_st : tf_state) (rsi rsi' : float) (ts ts' : Z) (t t' : float)
    (a : alert) :
  snd (on_sample m tf tf_st rsi ts t) = Some a ->
  classify_zone rsi' = classify_zone rsi ->
  fge (t' - t)%float 300%float = false ->
  snd (on_sample m tf (fst (on_sample m tf tf_st rsi ts t)) rsi' ts' t') = None.
Proof.
  intros Ha Hsame Hcool. destruct (classify_zone rsi) eqn:Hz.
  - rewrite (on_sample_below _ _ _ _ _ _ Hz) in Ha |- *.
    destruct (crossed_below ts tf_st below || can_low t tf_st); [|discriminate].
    rewrite (on_sample_below _ _ _ _ _ _ Hsame).
    unfold crossed_below, can_low. cbn [fst last_zone last_alert_low zone_eqb negb].
    rewrite andb_false_r. cbn [orb].
    change COOLDOWN_SECONDS with 300%float. now rewrite Hcool.
  - rewrite (on_sample_above _ _ _ _ _ _ Hz) in Ha |- *.
    destruct (crossed_above ts tf_st above || can_high t tf_st); [|discriminate].
    rewrite (on_sample_above _ _ _ _ _ _ Hsame).
    unfold crossed_above, can_high. cbn [fst last_zone last_alert_high zone_eqb negb].
    rewrite andb_false_r. cbn [orb].
    change COOLDOWN_SECONDS with 300%float. now rewrite Hcool.
  - rewrite (on_sample_normal _ _ _ _ _ _ Hz) in Ha. discriminate.
Qed.

Lemma no_second_alert_within_cooldown_witness :
  snd (on_sample ("bybit", "BTC/USDT")%string "1m"
         (fst (on_sample ("bybit", "BTC/USDT")%string "1m" initial_tf_state
                 18 60000 1000)) 15 120000 1060) = None.
Proof.
  apply (no_second_alert_within_cooldown ("bybit", "BTC/USDT")%string "1m"
           initial_tf_state 18 15 60000 120000 1000 1060
           (mk_alert OVERSOLD "1m" "BTC/USDT" 18 "bybit")); reflexivity.
Defined.

(** X5: every change of zone into [below] or [above] on a new candle is
    alerted, whatever the alert times are: also a flip from one extreme
    zone to the other. *)
Theorem zone_change_into_extreme_alerts (m : market) (tf : string)
    (tf_st : tf_state) (rsi : float) (ts : Z) (now_t : float) :
  ts <> last_ts tf_st ->
  classify_zone rsi <> last_zone tf_st ->
  classify_zone rsi <> normal ->
  exists a, snd (on_sample m tf tf_st rsi ts now_t) = Some a /\
            alert_side a = match classify_zone rsi with
                           | above => OVERBOUGHT
                           | _ => OVERSOLD
                           end.
Proof.
  intros Hts Hchg Hext. pose proof (new_candle_true ts tf_st Hts) as Hnew.
  destruct (classify_zone rsi) eqn:Hz; [| |congruence].
  - rewrite (on_sample_below _ _ _ _ _ _ Hz). unfold crossed_below.
    rewrite Hnew. destruct (last_zone tf_st); [congruence| |]; by eexists.
  - rewrite (on_sample_above _ _ _ _ _ _ Hz). unfold crossed_above.
    rewrite Hnew. destruct (last_zone tf_st); [|congruence|]; by eexists.
Qed.

Lemma zone_change_into_extreme_alerts_witness :
  exists a,
    snd (on_sample ("bybit", "BTC/USDT")%string "1m" (recently_alerted above)
           18 120000 1000) = Some a /\
    alert_side a = OVERSOLD.
Proof.
  apply (zone_change_into_extreme_alerts ("bybit", "BTC/USDT")%string "1m"
           (recently_alerted above) 18 120000 1000);
    [simpl; lia | discriminate | discriminate].
Defined.

(** X6: a return to [normal] re-arms the alert: a sample back in an
    extreme zone on a later candle is alerted however short the time
    since the last alert, so two alerts of one side can follow each other
    within the cooldown. *)
Theorem return_to_normal_rearms (m : market) (tf : string)
    (tf_st : tf_state) (rsi1 rsi2 : float) (ts1 ts2 : Z) (t1 t2 : float) :
  classify_zone rsi1 = normal ->
  classify_zone rsi2 <> normal ->
  ts2 <> ts1 ->
  is_Some (snd (on_sample m tf (fst (on_sample m tf tf_st rsi1 ts1 t1))
                  rsi2 ts2 t2)).
Proof.
  intros Hn Hext Hts. rewrite (on_sample_normal _ _ _ _ _ _ Hn). cbn [fst].
  destruct (classify_zone rsi2) eqn:Hz; [| |congruence].
  - rewrite (on_sample_below _ _ _ _ _ _ Hz). unfold crossed_below, new_candle.
    cbn [last_ts last_zone zone_eqb negb andb].
    apply Z.eqb_neq in Hts. rewrite Hts. by eexists.
  - rewrite (on_sample_above _ _ _ _ _ _ Hz). unfold crossed_above, new_candle.
    cbn [last_ts last_zone zone_eqb negb andb].
    apply Z.eqb_neq in Hts. rewrite Hts. by eexists.
Qed.

Lemma return_to_normal_rearms_witness :
  is_Some (snd (on_sample ("bybit", "BTC/USDT")%string "1m"
                  (fst (on_sample ("bybit", "BTC/USDT")%string "1m"
                          (recently_alerted below) 50 120000 1000))
                  18 180000 1001)).
Proof.
  apply (return_to_normal_rearms ("bybit", "BTC/USDT")%string "1m"
           (recently_alerted below) 50 18 120000 180000 1000 1001);
    [reflexivity | discriminate | lia].
Defined.

(** X7: a cycle on one timeframe fails exactly when the table has no
    entry for it; when it succeeds the table keeps its set of keys and
    the entries of all other timeframes. *)
Theorem process_sample_frame (m : market) (state : gmap string tf_state)
    (tf : string) (rsi : float) (ts : Z) (now_t : float) :
  (process_sample m state tf rsi ts now_t = None <-> state !! tf = None) /\
  (forall state' alert_text,
     process_sample m state tf rsi ts now_t = Some (state', alert_text) ->
     dom state' = dom state /\
     forall tf', tf' <> tf -> state' !! tf' = state !! tf').
Proof.
  unfold process_sample. destruct (state !! tf) as [tf_st|] eqn:Hlook.
  - destruct (on_sample m tf tf_st rsi ts now_t) as [tf_st' a]. split.
    + split; discriminate.
    + intros state' alert_text Heq. injection Heq as <- <-. split.
      * rewrite dom_insert_L. apply subseteq_union_1_L, singleton_subseteq_l.
        by eapply elem_of_dom_2.
      * intros tf' Hne. by apply lookup_insert_ne.
  - split; [done|]. intros state' alert_text. discriminate.
Qed.

Lemma process_sample_frame_witness :
  exists state' alert_text,
    process_sample ("bybit", "BTC/USDT")%string initial_state "5m" 18 300000 1000
      = Some (state', alert_text) /\
    dom state' = dom initial_state /\
    state' !! "1h"%string = initial_state !! "1h"%string.
Proof.
  eexists _, _. split; [reflexivity|].
  destruct (proj2 (process_sample_frame ("bybit", "BTC/USDT")%string
                     initial_state "5m" 18 300000 1000) _ _ eq_refl) as [Hd Ho].
  split; [exact Hd|]. apply Ho. discriminate.
Defined.

(** ** Market source selector *)

(** The pairs attempted are those of the table whose provider
    initialises. *)
Lemma elem_of_attempts (w : world) (cands : list (string * list string))
    (ex_id sym : string) :
  (ex_id, sym) ∈ attempts w cands <->
  initialises w ex_id = true /\
  exists syms, (ex_id, syms) ∈ cands /\ sym ∈ syms.
Proof.
  induction cands as [|[ex_id' syms'] rest IH]; cbn [attempts].
  - split; [intros H; by apply elem_of_nil in H|].
    intros (_ & syms & H & _). by apply elem_of_nil in H.
  - rewrite elem_of_app, IH. split.
    + intros [H | (Hi & syms & Hin & Hs)].
      * destruct (initialises w ex_id') eqn:Hi; [|by apply elem_of_nil in H].
        apply list_elem_of_fmap in H as (s & Heq & Hs).
        injection Heq as -> ->. split; [exact Hi|].
        exists syms'. split; [apply elem_of_cons; by left | exact Hs].
      * split; [exact Hi|]. exists syms.
        split; [apply elem_of_cons; by right | exact Hs].
    + intros (Hi & syms & Hin & Hs). apply elem_of_cons in Hin as [Heq | Hin].
      * injection Heq as -> ->. left. rewrite Hi.
        apply list_elem_of_fmap. by exists sym.
      * right. split; [exact Hi|]. by exists syms.
Qed.

Lemma find_Some_elem {A} (P : A -> bool) (l : list A) (x : A) :
  List.find P l = Some x -> x ∈ l /\ P x = true.
Proof.
  intros H. apply List.find_some in H as [Hin HP].
  split; [by apply list_elem_of_In | exact HP].
Qed.

Lemma find_None_elem {A} (P : A -> bool) (l : list A) :
  List.find P l = None -> forall x, x ∈ l -> P x = false.
Proof.
  intros H x Hin. apply (List.find_none P l H). by apply list_elem_of_In.
Qed.

(** X8: a market that the selection returns is a pair of the table, on a
    provider that initialised, and its probe answered a list of candles
    whose first candle has five fields or more. *)
Theorem selected_market_is_working (w : world)
    (cands : list (string * list string)) (last_err : option exn)
    (ex_id sym : string) :
  fst (pick_from w cands last_err) = Ok (ex_id, sym) ->
  (exists syms, (ex_id, syms) ∈ cands /\ sym ∈ syms) /\
  ccxt_make w ex_id = Ok tt /\
  exists c candles,
    ccxt_fetch_ohlcv w ex_id sym "1m" 10 = Ok (c :: candles) /\
    (5 <= length c)%nat.
Proof.
  intros Hok. destruct (pick_from_spec w cands last_err) as [Hr _].
  rewrite Hr in Hok.
  destruct (List.find (probe_works w) (attempts w cands)) as [m|] eqn:Hf;
    [|discriminate].
  injection Hok as ->. apply find_Some_elem in Hf as [Hin Hw].
  apply elem_of_attempts in Hin as [Hi Hc]. split; [exact Hc|]. split.
  - unfold initialises in Hi. destruct (ccxt_make w ex_id) as [[]|]; done.
  - unfold probe_works in Hw. cbn [fst snd] in Hw.
    destruct (ccxt_fetch_ohlcv w ex_id sym "1m" 10) as [[|c candles]|];
      try discriminate.
    exists c, candles. split; [reflexivity|]. cbn [working] in Hw. lia.
Qed.

Lemma selected_market_is_working_witness :
  ccxt_make world_no_bybit "okx" = Ok tt.
Proof.
  apply (selected_market_is_working world_no_bybit SYMBOL_CANDIDATES None
           "okx" "BTC/USDT"). reflexivity.
Defined.

(** X9: the selection returns a market exactly when some candidate of a
    provider that initialises has a working probe; otherwise it raises,
    and the message starts with the fixed text. *)
Theorem selection_succeeds_iff_some_probe_works (w : world)
    (cands : list (string * list string)) (last_err : option exn) :
  ((exists m, fst (pick_from w cands last_err) = Ok m) <->
   (exists m, m ∈ attempts w cands /\ probe_works w m = true)) /\
  ((exists e, fst (pick_from w cands last_err) =
                Raise ("No working exchange/symbol. Last error: " ++ e)%string) <->
   (forall m, m ∈ attempts w cands -> probe_works w m = false)).
Proof.
  destruct (pick_from_spec w cands last_err) as [-> _].
  destruct (List.find (probe_works w) (attempts w cands)) as [m|] eqn:Hf.
  - apply find_Some_elem in Hf as [Hin Hw]. split; split.
    + intros _. by exists m.
    + intros _. by exists m.
    + intros [e He]. discriminate.
    + intros Hall. rewrite (Hall m Hin) in Hw. discriminate.
  - pose proof (find_None_elem _ _ Hf) as Hnone. split; split.
    + intros [m Hm]. discriminate.
    + intros (m & Hin & Hw). rewrite (Hnone m Hin) in Hw. discriminate.
    + intros _. exact Hnone.
    + intros _. by eexists.
Qed.

Lemma probe_symbols_events (w : world) (ex_id : string) (syms : list string)
    (last_err : option exn) :
  Forall selection_event (snd (probe_symbols w ex_id syms last_err)).
Proof.
  revert last_err. induction syms as [|sym syms IH]; intros last_err.
  - apply Forall_nil_2.
  - rewrite probe_symbols_cons.
    destruct (ccxt_fetch_ohlcv w ex_id sym "1m" 10) as [candles|e].
    + destruct (working candles); cbn [snd].
      * repeat apply Forall_cons_2; simpl; auto.
      * apply Forall_cons_2; [simpl; auto | apply IH].
    + cbn [snd]. repeat apply Forall_cons_2; simpl; auto.
Qed.

Lemma pick_from_events (w : world)
    (cands : list (string * list string)) (last_err : option exn) :
  Forall selection_event (snd (pick_from w cands last_err)).
Proof.
  revert last_err. induction cands as [|[ex_id syms] rest IH]; intros last_err.
  - apply Forall_nil_2.
  - rewrite pick_from_cons. destruct (ccxt_make w ex_id) as [u|e].
    + cbn zeta. cbn [snd].
      apply Forall_cons_2; [exact I|]. apply Forall_cons_2; [exact I|].
      apply Forall_app_2.
      { destruct (ccxt_load_markets w ex_id);
          [apply Forall_nil_2 | apply Forall_cons_2; [exact I | apply Forall_nil_2]]. }
      apply Forall_app_2; [apply probe_symbols_events|].
      destruct (fst (probe_symbols w ex_id syms last_err)) as [m|le'].
      * apply Forall_nil_2.
      * apply Forall_cons_2; [reflexivity | apply IH].
    + cbn [snd]. apply Forall_cons_2; [exact I|].
      apply Forall_cons_2; [exact I | apply IH].
Qed.

(** X10: a selection never posts to Telegram, fetches nothing but 10
    candles of the timeframe ["1m"], and sleeps one second at a time. *)
Theorem selection_only_probes (w : world)
    (cands : list (string * list string)) (last_err : option exn) :
  Forall selection_event (snd (pick_from w cands last_err)) /\
  posts (snd (pick_from w cands last_err)) = [].
Proof.
  pose proof (pick_from_events w cands last_err) as H. split; [exact H|].
  induction H as [|ev t Hev _ IH]; [reflexivity|].
  destruct ev; try exact IH. destruct Hev.
Qed.

Lemma slept_app (t1 t2 : list event) : slept (t1 ++ t2) = slept t1 + slept t2.
Proof.
  induction t1 as [|ev t1 IH]; [reflexivity|].
  cbn [app]. unfold slept in *. cbn [foldr]. destruct ev; lia.
Qed.

Lemma slept_cons (ev : event) (t : list event) :
  slept (ev :: t) = match ev with EvSleep n => n + slept t | _ => slept t end.
Proof. now destruct ev. Qed.

Lemma probe_symbols_slept (w : world) (ex_id : string) (syms : list string)
    (last_err : option exn) :
  0 <= slept (snd (probe_symbols w ex_id syms last_err))
    <= Z.of_nat (length (probes (snd (probe_symbols w ex_id syms last_err)))).
Proof.
  revert last_err. induction syms as [|sym syms IH]; intros last_err.
  - cbn. lia.
  - rewrite probe_symbols_cons.
    destruct (ccxt_fetch_ohlcv w ex_id sym "1m" 10) as [candles|e].
    + destruct (working candles); cbn [snd].
      * cbn. lia.
      * rewrite slept_cons, probes_cons. cbn [length].
        specialize (IH last_err). lia.
    + cbn [snd]. rewrite !slept_cons, !probes_cons. cbn [length].
      specialize (IH (Some e)). lia.
Qed.

Lemma pick_from_slept (w : world) (cands : list (string * list string))
    (last_err : option exn) :
  0 <= slept (snd (pick_from w cands last_err))
    <= Z.of_nat (length (probes (snd (pick_from w cands last_err))))
       + Z.of_nat (length cands).
Proof.
  revert last_err. induction cands as [|[ex_id syms] rest IH]; intros last_err.
  - cbn. lia.
  - rewrite pick_from_cons. destruct (ccxt_make w ex_id) as [u|e].
    + cbn zeta. cbn [snd].
      change (EvMake ex_id (Ok u) :: EvLoadMarkets ex_id (ccxt_load_markets w ex_id)
                :: ?t) with ([EvMake ex_id (Ok u);
                              EvLoadMarkets ex_id (ccxt_load_markets w ex_id)] ++ t).
      rewrite !slept_app, !probes_app, !length_app. cbn [length].
      pose proof (probe_symbols_slept w ex_id syms last_err) as Hs.
      assert (Hw : slept match ccxt_load_markets w ex_id with
                         | Ok _ => []
                         | Raise e =>
                             [EvPrint (ex_id ++ " load_markets warn: " ++ e)]
                         end = 0).
      { now destruct (ccxt_load_markets w ex_id). }
      rewrite Hw. change (slept [EvMake ex_id (Ok u);
                   EvLoadMarkets ex_id (ccxt_load_markets w ex_id)]) with 0.
      destruct (fst (probe_symbols w ex_id syms last_err)) as [m|le'].
      * change (slept []) with 0. lia.
      * rewrite !slept_cons, !probes_cons. specialize (IH le'). lia.
    + cbn [snd]. rewrite !slept_cons, !probes_cons. cbn [length].
      specialize (IH (Some e)). lia.
Qed.

(** X11: a selection sleeps at most one second for each candidate of a
    provider that initialises and one for each provider of the table;
    with the configured table that is 16 seconds at most. *)
Theorem selection_sleep_is_bounded (w : world)
    (cands : list (string * list string)) (last_err : option exn) :
  0 <= slept (snd (pick_from w cands last_err))
    <= Z.of_nat (length (attempts w cands)) + Z.of_nat (length cands) /\
  slept (snd (pick_working_market w)) <= 16.
Proof.
  assert (Hgen : forall cs le,
    0 <= slept (snd (pick_from w cs le))
      <= Z.of_nat (length (attempts w cs)) + Z.of_nat (length cs)).
  { intros cs le. pose proof (pick_from_slept w cs le) as Hs.
    destruct (pick_from_spec w cs le) as [_ Hp]. rewrite Hp in Hs.
    pose proof (prefix_length _ _ (take_through_prefix (probe_works w)
                                     (attempts w cs))) as Hl.
    lia. }
  split; [apply Hgen|].
  specialize (Hgen SYMBOL_CANDIDATES None).
  assert (Hn : (length (attempts w SYMBOL_CANDIDATES) <= 11)%nat).
  { unfold SYMBOL_CANDIDATES. cbn [attempts]. rewrite !length_app.
    repeat match goal with
           | |- context [initialises w ?x] => destruct (initialises w x)
           end; cbn; lia. }
  unfold pick_working_market. cbn [length SYMBOL_CANDIDATES] in Hgen.
  change (length SYMBOL_CANDIDATES) with 5%nat in Hgen. lia.
Qed.

(** ** Notifier *)

Lemma str_not_true (s : string) : str_not s = true <-> s = ""%string.
Proof. destruct s; simpl; split; congruence. Qed.

Lemma str_not_false (s : string) : str_not s = false <-> s <> ""%string.
Proof. destruct s; simpl; split; congruence. Qed.

(** What [send_telegram] does with both credentials set. *)
Lemma send_telegram_enabled (w : world) (environ : gmap string string)
    (text : string) :
  BOT_TOKEN environ <> ""%string -> CHAT_ID environ <> ""%string ->
  send_telegram w environ text =
    let url := ("https://api.telegram.org/bot" ++ BOT_TOKEN environ
                  ++ "/sendMessage")%string in
    let data := [("chat_id", CHAT_ID environ); ("text", text)]%string in
    (Ok tt,
     EvPost url data 15 (requests_post w url data 15)
       :: match requests_post w url data 15 with
          | Ok _ => []
          | Raise e => [EvPrint ("Telegram send error: " ++ e)]
          end).
Proof.
  intros Ht Hc. apply str_not_false in Ht, Hc.
  unfold send_telegram. rewrite Ht, Hc. cbn [orb].
  unfold io_bind, post. cbn [fst snd].
  now destruct (requests_post w _ _ 15).
Qed.

(** X12: with both credentials set, [send_telegram] makes exactly one
    post, to the [sendMessage] URL of the bot, with the chat id and the
    text as form data and a timeout of 15 seconds; when the post raises,
    the error is printed and the call still returns normally. *)
Theorem send_telegram_posts_once (w : world) (environ : gmap string string)
    (text : string) :
  BOT_TOKEN environ <> ""%string -> CHAT_ID environ <> ""%string ->
  fst (send_telegram w environ text) = Ok tt /\
  posts (snd (send_telegram w environ text)) =
    [(("https://api.telegram.org/bot" ++ BOT_TOKEN environ ++ "/sendMessage")%string,
      [("chat_id", CHAT_ID environ); ("text", text)]%string, 15)] /\
  printed (snd (send_telegram w environ text)) =
    match requests_post w
            ("https://api.telegram.org/bot" ++ BOT_TOKEN environ ++ "/sendMessage")
            [("chat_id", CHAT_ID environ); ("text", text)]%string 15 with
    | Ok _ => []
    | Raise e => [("Telegram send error: " ++ e)%string]
    end.
Proof.
  intros Ht Hc. rewrite (send_telegram_enabled w environ text Ht Hc).
  cbn zeta. cbn [fst snd].
  now destruct (requests_post w _ _ 15).
Qed.

Lemma send_telegram_posts_once_witness :
  fst (send_telegram world_telegram_down environ_configured "hello") = Ok tt /\
  posts (snd (send_telegram world_telegram_down environ_configured "hello")) =
    [("https://api.telegram.org/bot123:abc/sendMessage"%string,
      [("chat_id", "42"); ("text", "hello")]%string, 15)] /\
  printed (snd (send_telegram world_telegram_down environ_configured "hello")) =
    ["Telegram send error: read timed out"%string].
Proof.
  apply (send_telegram_posts_once world_telegram_down environ_configured "hello");
    discriminate.
Defined.

(** X13: [send_telegram] never raises; it posts at most once, and it
    posts exactly when both credentials are non-empty strings (a
    credential set to the empty string counts as unset). *)
Theorem send_telegram_posts_iff_configured (w : world)
    (environ : gmap string string) (text : string) :
  fst (send_telegram w environ text) = Ok tt /\
  (length (posts (snd (send_telegram w environ text))) <= 1)%nat /\
  (posts (snd (send_telegram w environ text)) <> [] <->
   BOT_TOKEN environ <> ""%string /\ CHAT_ID environ <> ""%string).
Proof.
  destruct (str_not (BOT_TOKEN environ)) eqn:Ht.
  { apply str_not_true in Ht.
    rewrite (send_telegram_disabled w environ text (or_introl Ht)).
    split; [reflexivity|]. split; [cbn; lia|]. split; [done|].
    intros [H _]. contradiction. }
  destruct (str_not (CHAT_ID environ)) eqn:Hc.
  { apply str_not_true in Hc.
    rewrite (send_telegram_disabled w environ text (or_intror Hc)).
    split; [reflexivity|]. split; [cbn; lia|]. split; [done|].
    intros [_ H]. contradiction. }
  apply str_not_false in Ht, Hc.
  rewrite (send_telegram_enabled w environ text Ht Hc). cbn zeta. cbn [fst snd].
  split; [reflexivity|].
  destruct (requests_post w _ _ 15); cbn; (split; [lia|]); split; done.
Qed.

(** ** The sweep over the timeframes *)

Section SweepProperties.

Variable w : world.
Variable environ : gmap string string.
Variable is_base_error : exn -> bool.
Variable last_rsi : list candle -> result (float * Z).
Variable format_f : nat -> float -> string.
Variable now_t : string -> float.
Variable now_utc_str : string -> string.

Local Abbreviation sweep_tf := (sweep_timeframe w environ is_base_error last_rsi
                        format_f now_t now_utc_str).
Local Abbreviation sweep_all := (sweep w environ is_base_error last_rsi
                         format_f now_t now_utc_str).

Lemma fetch_rsi_trace (m : market) (tf : string) :
  snd (fetch_rsi w last_rsi m tf) =
    [EvFetch (fst m) (snd m) tf 200 (ccxt_fetch_ohlcv w (fst m) (snd m) tf 200)].
Proof.
  unfold fetch_rsi, io_bind, fetch_ohlcv, CANDLES_LIMIT. cbn [fst snd].
  now destruct (ccxt_fetch_ohlcv w (fst m) (snd m) tf 200).
Qed.

(** An alert text is never the empty string. *)
Lemma alert_text_nonempty (a : alert) :
  str_not (alert_text_of format_f now_utc_str a) = false.
Proof. unfold alert_text_of. now destruct (alert_side a). Qed.

(** The round of a timeframe whose fetch raised. *)
Lemma sweep_timeframe_error (st : run_state) (tf : string) (e : exn) :
  fst (fetch_rsi w last_rsi (binding st) tf) = Raise e ->
  sweep_tf st tf =
    if is_base_error e then
      (match fst (pick_working_market w) with
       | Ok m' => (mk_run_state m' (table st), None)
       | Raise _ => (st, None)
       end,
       snd (fetch_rsi w last_rsi (binding st) tf)
         ++ EvPrint (fst (binding st) ++ " " ++ snd (binding st) ++ " " ++ tf
                       ++ " error: " ++ e)
         :: EvSleep 10
         :: snd (pick_working_market w)
         ++ match fst (pick_working_market w) with
            | Ok m' =>
                snd (send_telegram w environ
                       ("🔁 Switched to " ++ fst m' ++ " / " ++ snd m'))
            | Raise ee => [EvPrint ("Switch failed: " ++ ee)]
            end)
    else
      ((st, None),
       snd (fetch_rsi w last_rsi (binding st) tf)
         ++ [EvPrint ("Fetch error " ++ tf ++ ": " ++ e)]).
Proof.
  intros Hf. unfold sweep_timeframe, io_bind at 1. rewrite Hf.
  destruct (is_base_error e).
  - unfold io_bind, print, sleep, emit, io_ret. cbn [fst snd app].
    destruct (fst (pick_working_market w)) as [m'|ee]; cbn [fst snd app].
    + now rewrite app_nil_r.
    + reflexivity.
  - reflexivity.
Qed.

(** The round of a timeframe whose fetch answered. *)
Lemma sweep_timeframe_ok (st : run_state) (tf : string) (rsi : float) (ts : Z) :
  fst (fetch_rsi w last_rsi (binding st) tf) = Ok (rsi, ts) ->
  sweep_tf st tf =
    match table st !! tf with
    | None => ((st, Some tf), snd (fetch_rsi w last_rsi (binding st) tf))
    | Some tf_st =>
        let x := on_sample (binding st) tf tf_st rsi ts (now_t tf) in
        ((mk_run_state (binding st) (<[tf := fst x]> (table st)), None),
         snd (fetch_rsi w last_rsi (binding st) tf)
           ++ EvPrint (status_line format_f (binding st) tf rsi
                         (classify_zone rsi) (new_candle ts tf_st))
           :: match snd x with
              | Some a =>
                  snd (send_telegram w environ
                         (alert_text_of format_f now_utc_str a))
              | None => []
              end)
    end.
Proof.
  intros Hf. unfold sweep_timeframe, io_bind at 1. rewrite Hf.
  destruct (table st !! tf) as [tf_st|].
  - cbn zeta. unfold io_bind, print, emit, io_ret. cbn [fst snd app].
    destruct (snd (on_sample (binding st) tf tf_st rsi ts (now_t tf))) as [a|].
    + rewrite alert_text_nonempty. now rewrite app_nil_r.
    + reflexivity.
  - cbn [io_ret fst snd]. now rewrite app_nil_r.
Qed.

Lemma posts_app (t1 t2 : list event) : posts (t1 ++ t2) = posts t1 ++ posts t2.
Proof. apply omap_app. Qed.

Lemma makes_app (t1 t2 : list event) : makes (t1 ++ t2) = makes t1 ++ makes t2.
Proof. apply omap_app. Qed.

Lemma posts_cons (ev : event) (t : list event) :
  posts (ev :: t) =
    match ev with
    | EvPost url data timeout _ => (url, data, timeout) :: posts t
    | _ => posts t
    end.
Proof. now destruct ev. Qed.

Lemma pick_from_posts (cands : list (string * list string))
    (last_err : option exn) :
  posts (snd (pick_from w cands last_err)) = [].
Proof.
  pose proof (pick_from_events w cands last_err) as H.
  induction H as [|ev t Hev _ IH]; [reflexivity|].
  destruct ev; try exact IH. destruct Hev.
Qed.

Lemma send_telegram_posts_length (text : string) :
  (length (posts (snd (send_telegram w environ text))) <= 1)%nat.
Proof.
  destruct (str_not (BOT_TOKEN environ)) eqn:Ht.
  { apply str_not_true in Ht.
    rewrite (send_telegram_disabled w environ text (or_introl Ht)). cbn. lia. }
  destruct (str_not (CHAT_ID environ)) eqn:Hc.
  { apply str_not_true in Hc.
    rewrite (send_telegram_disabled w environ text (or_intror Hc)). cbn. lia. }
  apply str_not_false in Ht, Hc.
  rewrite (send_telegram_enabled w environ text Ht Hc). cbn zeta. cbn [snd].
  destruct (requests_post w _ _ 15); cbn; lia.
Qed.

Lemma send_telegram_makes (text : string) :
  makes (snd (send_telegram w environ text)) = [].
Proof.
  destruct (str_not (BOT_TOKEN environ)) eqn:Ht.
  { apply str_not_true in Ht.
    now rewrite (send_telegram_disabled w environ text (or_introl Ht)). }
  destruct (str_not (CHAT_ID environ)) eqn:Hc.
  { apply str_not_true in Hc.
    now rewrite (send_telegram_disabled w environ text (or_intror Hc)). }
  apply str_not_false in Ht, Hc.
  rewrite (send_telegram_enabled w environ text Ht Hc). cbn zeta. cbn [snd].
  now destruct (requests_post w _ _ 15).
Qed.


(** X15: a timeframe whose fetch answers goes through one cycle of the
    decision engine on the table, at the clock reading of that
    timeframe: the binding is kept, no selection is run, and Telegram is
    posted to only as far as sending the alert of that cycle does. *)
Theorem answered_fetch_is_one_cycle (st : run_state) (tf : string)
    (tf_st : tf_state) (rsi : float) (ts : Z) :
  fst (fetch_rsi w last_rsi (binding st) tf) = Ok (rsi, ts) ->
  table st !! tf = Some tf_st ->
  exists table' alert_text,
    process_sample (binding st) (table st) tf rsi ts (now_t tf)
      = Some (table', alert_text) /\
    fst (sweep_tf st tf) = (mk_run_state (binding st) table', None) /\
    makes (snd (sweep_tf st tf)) = [] /\
    posts (snd (sweep_tf st tf)) =
      match alert_text with
      | Some a =>
          posts (snd (send_telegram w environ
                        (alert_text_of format_f now_utc_str a)))
      | None => []
      end.
Proof.
  intros Hf Hlook. rewrite (sweep_timeframe_ok st tf rsi ts Hf), Hlook.
  unfold process_sample. rewrite Hlook. cbn zeta.
  destruct (on_sample (binding st) tf tf_st rsi ts (now_t tf)) as [tf_st' a].
  exists (<[tf := tf_st']> (table st)), a. cbn [fst snd].
  split; [reflexivity|]. split; [reflexivity|].
  rewrite fetch_rsi_trace. cbn [app]. rewrite makes_cons, makes_cons.
  unfold posts at 1. cbn [omap]. fold (posts
    match a with
    | Some a0 => snd (send_telegram w environ (alert_text_of format_f now_utc_str a0))
    | None => []
    end).
  destruct a as [a|]; [|split; reflexivity].
  split; [apply send_telegram_makes | reflexivity].
Qed.

End SweepProperties.

Section SweepLoop.

Variable w : world.
Variable environ : gmap string string.
Variable is_base_error : exn -> bool.
Variable last_rsi : list candle -> result (float * Z).
Variable format_f : nat -> float -> string.
Variable now_t : string -> float.
Variable now_utc_str : string -> string.

Local Abbreviation sweep_tf := (sweep_timeframe w environ is_base_error last_rsi
                                  format_f now_t now_utc_str).
Local Abbreviation sweep_all := (sweep w environ is_base_error last_rsi
                                   format_f now_t now_utc_str).

Lemma fetch_rsi_cases (m : market) (tf : string) :
  (exists e, fst (fetch_rsi w last_rsi m tf) = Raise e) \/
  (exists rsi ts, fst (fetch_rsi w last_rsi m tf) = Ok (rsi, ts)).
Proof.
  destruct (fst (fetch_rsi w last_rsi m tf)) as [[rsi ts]|e]; eauto.
Qed.

(** A round never changes the keys of the table, and a [KeyError] means
    the timeframe has no entry. *)
Lemma sweep_timeframe_keys (st : run_state) (tf : string) :
  dom (table (fst (fst (sweep_tf st tf)))) = dom (table st) /\
  (forall key, snd (fst (sweep_tf st tf)) = Some key ->
     key = tf /\ table st !! tf = None /\ fst (fst (sweep_tf st tf)) = st).
Proof.
  destruct (fetch_rsi_cases (binding st) tf) as [[e He] | (rsi & ts & Hok)].
  - rewrite (sweep_timeframe_error w environ is_base_error last_rsi format_f
               now_t now_utc_str st tf e He).
    destruct (is_base_error e); [destruct (fst (pick_working_market w))|];
      cbn [fst snd table]; (split; [reflexivity | discriminate]).
  - rewrite (sweep_timeframe_ok w environ is_base_error last_rsi format_f
               now_t now_utc_str st tf rsi ts Hok).
    destruct (table st !! tf) as [tf_st|] eqn:Hlook; cbn zeta; cbn [fst snd table].
    + split; [|discriminate].
      rewrite dom_insert_L. apply subseteq_union_1_L, singleton_subseteq_l.
      by eapply elem_of_dom_2.
    + split; [reflexivity|]. intros key Hk. injection Hk as <-. by repeat split.
Qed.

Lemma sweep_timeframe_posts (st : run_state) (tf : string) :
  (length (posts (snd (sweep_tf st tf))) <= 1)%nat.
Proof.
  destruct (fetch_rsi_cases (binding st) tf) as [[e He] | (rsi & ts & Hok)].
  - rewrite (sweep_timeframe_error w environ is_base_error last_rsi format_f
               now_t now_utc_str st tf e He).
    destruct (is_base_error e); cbn [snd]; rewrite fetch_rsi_trace.
    + cbn [app]. rewrite !posts_cons. cbn beta iota.
      rewrite posts_app. unfold pick_working_market at 1.
      rewrite pick_from_posts. cbn [app].
      destruct (fst (pick_working_market w)) as [m'|ee];
        [apply send_telegram_posts_length | cbn; lia].
    + cbn. lia.
  - rewrite (sweep_timeframe_ok w environ is_base_error last_rsi format_f
               now_t now_utc_str st tf rsi ts Hok).
    destruct (table st !! tf) as [tf_st|]; cbn zeta; cbn [snd];
      rewrite fetch_rsi_trace; [|cbn; lia].
    cbn [app]. rewrite !posts_cons. cbn beta iota.
    destruct (snd (on_sample (binding st) tf tf_st rsi ts (now_t tf))) as [a|];
      [apply send_telegram_posts_length | cbn; lia].
Qed.

(** One step of the loop over the timeframes. *)
Lemma sweep_cons (tf : string) (rest : list string) (st : run_state) :
  sweep_all (tf :: rest) st =
    match snd (fst (sweep_tf st tf)) with
    | Some _ => (fst (sweep_tf st tf), snd (sweep_tf st tf))
    | None =>
        (fst (sweep_all rest (fst (fst (sweep_tf st tf)))),
         snd (sweep_tf st tf) ++ snd (sweep_all rest (fst (fst (sweep_tf st tf)))))
    end.
Proof.
  cbn [sweep]. unfold io_bind.
  destruct (snd (fst (sweep_tf st tf))); [|reflexivity].
  cbn [io_ret fst snd]. now rewrite app_nil_r.
Qed.

Lemma sweep_no_key_error (tfs : list string) (st : run_state) :
  (forall tf, tf ∈ tfs -> is_Some (table st !! tf)) ->
  snd (fst (sweep_all tfs st)) = None /\
  dom (table (fst (fst (sweep_all tfs st)))) = dom (table st).
Proof.
  revert st. induction tfs as [|tf rest IH]; intros st Hkeys.
  - split; reflexivity.
  - rewrite sweep_cons. destruct (sweep_timeframe_keys st tf) as [Hdom Hkey].
    destruct (snd (fst (sweep_tf st tf))) as [key|].
    + destruct (Hkey key eq_refl) as (_ & Hnone & _).
      destruct (Hkeys tf) as [x Hx]; [apply elem_of_cons; by left|]. congruence.
    + cbn [fst snd].
      destruct (IH (fst (fst (sweep_tf st tf)))) as [Hn Hd].
      * intros tf' Hin. apply elem_of_dom. rewrite Hdom. apply elem_of_dom.
        apply Hkeys, elem_of_cons. by right.
      * split; [exact Hn | congruence].
Qed.

(** X16: a sweep over timeframes that all have an entry in the table is
    left by no exception, and the table keeps its set of keys. *)
Theorem sweep_keeps_keys (tfs : list string) (st : run_state) :
  (forall tf, tf ∈ tfs -> is_Some (table st !! tf)) ->
  snd (fst (sweep_all tfs st)) = None /\
  dom (table (fst (fst (sweep_all tfs st)))) = dom (table st).
Proof. apply sweep_no_key_error. Qed.

(** X17: a sweep posts to Telegram at most once for each timeframe. *)
Theorem sweep_posts_at_most_once_per_timeframe (tfs : list string)
    (st : run_state) :
  (length (posts (snd (sweep_all tfs st))) <= length tfs)%nat.
Proof.
  revert st. induction tfs as [|tf rest IH]; intros st.
  - cbn. lia.
  - rewrite sweep_cons. pose proof (sweep_timeframe_posts st tf) as Hp.
    destruct (snd (fst (sweep_tf st tf))); cbn [snd length].
    + lia.
    + rewrite posts_app, length_app.
      specialize (IH (fst (fst (sweep_tf st tf)))). lia.
Qed.


(** The body of the [while] loop on a table that has every timeframe. *)
Lemma loop_iteration_full (start t_sleep : float) (st : run_state) :
  (forall tf, tf ∈ TIMEFRAMES -> is_Some (table st !! tf)) ->
  loop_iteration w environ is_base_error last_rsi format_f now_t now_utc_str
      start t_sleep st =
    (fst (fst (sweep_all TIMEFRAMES st)),
     snd (sweep_all TIMEFRAMES st)
       ++ [EvSleep (if flt (t_sleep - start)%float 240%float then 30 else 1)]) /\
  forall tf, tf ∈ TIMEFRAMES ->
    is_Some (table (fst (fst (sweep_all TIMEFRAMES st))) !! tf).
Proof.
  intros Hkeys. destruct (sweep_no_key_error TIMEFRAMES st Hkeys) as [Hn Hd].
  split.
  - unfold loop_iteration, io_bind. rewrite Hn. reflexivity.
  - intros tf Hin. apply elem_of_dom. rewrite Hd. apply elem_of_dom.
    by apply Hkeys.
Qed.

(** X19: on a table that has every configured timeframe, one round of
    the [while] loop is the sweep followed by one sleep, of 30 seconds
    while less than 240 seconds have passed since the start and of one
    second otherwise; the handler of unexpected errors is not entered,
    and the table still has every timeframe afterwards. *)
Theorem loop_iteration_is_sweep_then_sleep (start t_sleep : float)
    (st : run_state) :
  (forall tf, tf ∈ TIMEFRAMES -> is_Some (table st !! tf)) ->
  loop_iteration w environ is_base_error last_rsi format_f now_t now_utc_str
      start t_sleep st =
    (fst (fst (sweep_all TIMEFRAMES st)),
     snd (sweep_all TIMEFRAMES st)
       ++ [EvSleep (if flt (t_sleep - start)%float 240%float then 30 else 1)]) /\
  forall tf, tf ∈ TIMEFRAMES ->
    is_Some (table (fst (fst (sweep_all TIMEFRAMES st))) !! tf).
Proof. apply loop_iteration_full. Qed.

End SweepLoop.

(** ** The [while] loop and [main] *)

Section MainProperties.

Variable environ : gmap string string.
Variable is_base_error : exn -> bool.
Variable last_rsi : list candle -> result (float * Z).
Variable format_f : nat -> float -> string.

Local Abbreviation run_loop := (main_loop environ is_base_error last_rsi format_f).
Local Abbreviation run_main := (main environ is_base_error last_rsi format_f).

(** Less than [RUN_SECONDS] have passed at the head of the round. *)
Local Abbreviation within_budget start :=
  (fun o : outside => flt (o_t_head o - start)%float RUN_SECONDS = true).

Lemma initial_state_keys (tf : string) :
  tf ∈ TIMEFRAMES -> is_Some (initial_state !! tf).
Proof.
  unfold TIMEFRAMES. rewrite !elem_of_cons.
  intros [-> | [-> | [-> | [-> | [-> | H]]]]]; [by eexists ..|].
  by apply elem_of_nil in H.
Qed.

(** The loop keeps a table that has every timeframe. *)
Lemma main_loop_keys (start : float) (rounds : list outside) (st st' : run_state) :
  (forall tf, tf ∈ TIMEFRAMES -> is_Some (table st !! tf)) ->
  fst (run_loop start rounds st) = Some st' ->
  forall tf, tf ∈ TIMEFRAMES -> is_Some (table st' !! tf).
Proof.
  revert st. induction rounds as [|o rest IH]; intros st Hkeys; cbn [main_loop].
  - discriminate.
  - destruct (flt (o_t_head o - start) RUN_SECONDS).
    + unfold io_bind. cbn [fst].
      destruct (loop_iteration_full (o_world o) environ is_base_error last_rsi
                  format_f (o_now_t o) (o_now_utc_str o) start (o_t_sleep o)
                  st Hkeys) as [-> Hk].
      cbn [fst]. apply IH. exact Hk.
    + intros [= <-]. exact Hkeys.
Qed.

Lemma main_loop_returns (start : float) (rounds : list outside) (st : run_state) :
  is_Some (fst (run_loop start rounds st)) <->
  Exists (fun o => flt (o_t_head o - start)%float RUN_SECONDS = false) rounds.
Proof.
  revert st. induction rounds as [|o rest IH]; intros st; cbn [main_loop].
  - split; [intros [x Hx]; discriminate | intros H; inversion H].
  - rewrite Exists_cons. destruct (flt (o_t_head o - start) RUN_SECONDS) eqn:Hb.
    + unfold io_bind. cbn [fst]. rewrite IH. split; [by right|].
      intros [H | H]; [discriminate | exact H].
    + split; [by left | intros _; by eexists].
Qed.

Lemma main_loop_stops (start : float) (pre post : list outside) (o : outside)
    (st : run_state) :
  Forall (within_budget start) pre ->
  flt (o_t_head o - start)%float RUN_SECONDS = false ->
  run_loop start (pre ++ o :: post) st = run_loop start (pre ++ [o]) st.
Proof.
  intros Hpre Ho. revert st.
  induction Hpre as [|o' pre Ho' _ IH]; intros st; cbn [app main_loop].
  - now rewrite Ho.
  - rewrite Ho'. unfold io_bind. now rewrite IH.
Qed.

(** X20: the loop returns exactly when, at the head of some round, 240
    seconds or more have passed since the start. *)
Theorem main_loop_returns_iff_budget_spent (start : float)
    (rounds : list outside) (st : run_state) :
  is_Some (fst (run_loop start rounds st)) <->
  Exists (fun o => flt (o_t_head o - start)%float 240%float = false) rounds.
Proof. apply main_loop_returns. Qed.

(** X21: the loop stops at the first round at whose head the budget is
    spent: what the outside would answer after that round plays no part,
    neither in the state left nor in what the run did. *)
Theorem main_loop_stops_at_first_spent_round (start : float)
    (pre post : list outside) (o : outside) (st : run_state) :
  Forall (fun o' => flt (o_t_head o' - start)%float 240%float = true) pre ->
  flt (o_t_head o - start)%float 240%float = false ->
  run_loop start (pre ++ o :: post) st = run_loop start (pre ++ [o]) st /\
  is_Some (fst (run_loop start (pre ++ o :: post) st)).
Proof.
  intros Hpre Ho. split; [by apply main_loop_stops|].
  apply main_loop_returns, Exists_app. right. by apply Exists_cons_hd.
Qed.

(** [main] once the first selection is known. *)
Lemma main_unfold (w0 : world) (start : float) (rounds : list outside) :
  fst (run_main w0 start rounds) =
    match fst (pick_working_market w0) with
    | Raise e => Raise e
    | Ok m => Ok (fst (run_loop start rounds (mk_run_state m initial_state)))
    end.
Proof.
  unfold main, io_bind. cbn [fst snd].
  now destruct (fst (pick_working_market w0)).
Qed.

(** X22: the state that [main] leaves behind has an entry for every
    configured timeframe. *)
Theorem main_keeps_every_timeframe (w0 : world) (start : float)
    (rounds : list outside) (st : run_state) :
  fst (run_main w0 start rounds) = Ok (Some st) ->
  forall tf, tf ∈ TIMEFRAMES -> is_Some (table st !! tf).
Proof.
  rewrite main_unfold.
  destruct (fst (pick_working_market w0)) as [m|e]; [|discriminate].
  intros [= Hloop]. eapply main_loop_keys; [|exact Hloop].
  cbn [table]. apply initial_state_keys.
Qed.

End MainProperties.

(** ** The theorems of the run loop at sample worlds *)


Lemma answered_fetch_is_one_cycle_witness :
  exists table' alert_text,
    process_sample ("okx", "BTC/USDT")%string initial_state "1m" 18 120000 1000
      = Some (table', alert_text) /\
    fst (sweep_timeframe world_bybit_down ∅ sample_is_base_error
           sample_last_rsi sample_format_f sample_now_t sample_now_utc_str
           on_okx "1m")
      = (mk_run_state ("okx", "BTC/USDT")%string table', None).
Proof.
  destruct (answered_fetch_is_one_cycle world_bybit_down ∅ sample_is_base_error
              sample_last_rsi sample_format_f sample_now_t sample_now_utc_str
              on_okx "1m" initial_tf_state 18 120000 eq_refl eq_refl)
    as (table' & alert_text & Hp & Hs & _).
  exists table', alert_text. split; [exact Hp | exact Hs].
Defined.

Lemma sweep_keeps_keys_witness :
  snd (fst (sweep world_bybit_down ∅ sample_is_base_error sample_last_rsi
              sample_format_f sample_now_t sample_now_utc_str
              TIMEFRAMES on_bybit)) = None.
Proof.
  apply (sweep_keeps_keys world_bybit_down ∅ sample_is_base_error
           sample_last_rsi sample_format_f sample_now_t sample_now_utc_str
           TIMEFRAMES on_bybit).
  apply initial_state_keys.
Defined.


Lemma loop_iteration_is_sweep_then_sleep_witness :
  last (snd (loop_iteration world_bybit_down ∅ sample_is_base_error
               sample_last_rsi sample_format_f sample_now_t sample_now_utc_str
               1000 1015 on_okx)) = Some (EvSleep 30).
Proof.
  rewrite (proj1 (loop_iteration_is_sweep_then_sleep world_bybit_down ∅
                    sample_is_base_error sample_last_rsi sample_format_f
                    sample_now_t sample_now_utc_str 1000 1015 on_okx
                    initial_state_keys)).
  cbn [snd]. now rewrite last_snoc.
Defined.

Lemma main_loop_stops_at_first_spent_round_witness :
  is_Some (fst (main_loop ∅ sample_is_base_error sample_last_rsi sample_format_f
                  1000 ([round_at_10] ++ round_at_250 :: [round_at_10]) on_okx)).
Proof.
  apply (main_loop_stops_at_first_spent_round ∅ sample_is_base_error
           sample_last_rsi sample_format_f 1000 [round_at_10] [round_at_10]
           round_at_250 on_okx).
  - apply Forall_cons_2; [reflexivity | apply Forall_nil_2].
  - reflexivity.
Defined.

Lemma main_keeps_every_timeframe_witness :
  exists st,
    fst (main ∅ sample_is_base_error sample_last_rsi sample_format_f
           world_bybit_down 1000 [round_at_10; round_at_250]) = Ok (Some st) /\
    is_Some (table st !! "4h"%string).
Proof.
  destruct (fst (main ∅ sample_is_base_error sample_last_rsi sample_format_f
                   world_bybit_down 1000 [round_at_10; round_at_250]))
    as [[st|]|e] eqn:Hm.
  - exists st. split; [reflexivity|].
    apply (main_keeps_every_timeframe ∅ sample_is_base_error sample_last_rsi
             sample_format_f world_bybit_down 1000 [round_at_10; round_at_250]
             st Hm).
    do 4 (apply elem_of_cons; right). apply elem_of_cons. by left.
  - exfalso. vm_compute in Hm. discriminate.
  - exfalso. vm_compute in Hm. discriminate.
Defined.
